(** * Audio lyrics fetcher: a shallow embedding of [audio_lyrics_fetcher.py]

    The development follows the Python module top to bottom:

    - Python values as they come out of [response.json()], with the
      truthiness, subscription and attribute rules the code depends on;
    - the four [fetch_lyrics_*] methods of [LyricsFetcher], each a
      [try ... except Exception] around one HTTP GET;
    - [LyricsFetcher.fetch_lyrics], the hard-coded fallback sequence;
    - [AudioParser]: [save_lyrics], [process_audio_file] and
      [process_directory] over a file system kept as a finite map.

    Console output ([print]) is not part of the model.  Effects that the
    results depend on (HTTP requests, tag reads, sleeps, file writes) are
    threaded through an explicit world together with Python exceptions. *)

From Stdlib Require Import ZArith NArith List String Ascii QArith_base Floats.
From stdpp Require Import base option list gmap sorting lexico.

Set Warnings "-register-all".
Open Scope Z_scope.

(** ** Strings *)

(** A Python [str] is a sequence of Unicode code points. *)
Definition pystr := list N.

(** Literals: every character of a Rocq string literal is one code point. *)
Definition str (s : string) : pystr :=
  map N_of_ascii (list_ascii_of_string s).

(** [str.isspace] on one character, the table behind [str.strip()] and the
    class [\s] of a [str] pattern. *)
Definition isspace (c : N) : bool :=
  ((9 <=? c) && (c <=? 13) || (28 <=? c) && (c <=? 32)
   || (c =? 133) || (c =? 160) || (c =? 5760)
   || (8192 <=? c) && (c <=? 8202)
   || (c =? 8232) || (c =? 8233) || (c =? 8239) || (c =? 8287)
   || (c =? 12288))%N.

Fixpoint lstrip (s : pystr) : pystr :=
  match s with
  | c :: s' => if isspace c then lstrip s' else s
  | [] => []
  end.

Definition rstrip (s : pystr) : pystr := rev (lstrip (rev s)).

(** [s.strip()] *)
Definition strip (s : pystr) : pystr := rstrip (lstrip s).

(** ** Python values and exceptions *)

(** The values [json()] can build.  A JSON object has string keys. *)
Inductive pyval :=
| PNone
| PBool (b : bool)
| PInt (z : Z)
| PFloat (f : float)
| PStr (s : pystr)
| PList (l : list pyval)
| PDict (d : gmap pystr pyval).

(** The exception classes the code can meet; all derive from [Exception]. *)
Inductive exn :=
| TypeError | AttributeError | KeyError | IndexError | ValueError
| JSONDecodeError | ParseError | RequestException | OSError
| UnicodeEncodeError | RuntimeError.

Inductive res (A : Type) :=
| Ok (a : A)
| Raise (e : exn).
Arguments Ok {A} a.
Arguments Raise {A} e.

(** [bool(v)] *)
Definition truthy (v : pyval) : bool :=
  match v with
  | PNone => false
  | PBool b => b
  | PInt z => negb (z =? 0)
  | PFloat f => negb (PrimFloat.eqb f PrimFloat.zero)
  | PStr s => match s with [] => false | _ => true end
  | PList l => match l with [] => false | _ => true end
  | PDict d => negb (bool_decide (d = ∅))
  end.

(** [len(v)] *)
Definition py_len (v : pyval) : res Z :=
  match v with
  | PStr s => Ok (Z.of_nat (length s))
  | PList l => Ok (Z.of_nat (length l))
  | PDict d => Ok (Z.of_nat (size d))
  | _ => Raise TypeError
  end.

(** [v[0]]: a JSON object has no integer key. *)
Definition py_item0 (v : pyval) : res pyval :=
  match v with
  | PList (x :: _) => Ok x
  | PList [] => Raise IndexError
  | PStr (c :: _) => Ok (PStr [c])
  | PStr [] => Raise IndexError
  | PDict _ => Raise KeyError
  | _ => Raise TypeError
  end.

(** [v.get(key, default)]: only a dict has the method. *)
Definition py_get (v : pyval) (key : pystr) (default : pyval) : res pyval :=
  match v with
  | PDict d => Ok (match d !! key with Some x => x | None => default end)
  | _ => Raise AttributeError
  end.

(** [v.strip()]: only a str has the method. *)
Definition py_strip (v : pyval) : res pystr :=
  match v with
  | PStr s => Ok (strip s)
  | _ => Raise AttributeError
  end.

Fixpoint is_prefix (p s : pystr) : bool :=
  match p, s with
  | [], _ => true
  | a :: p', b :: s' => (a =? b)%N && is_prefix p' s'
  | _ :: _, [] => false
  end.

Fixpoint is_substring (p s : pystr) : bool :=
  is_prefix p s || match s with [] => false | _ :: s' => is_substring p s' end.

(** [key in v] for a str [key]. *)
Definition py_contains (key : pystr) (v : pyval) : res bool :=
  match v with
  | PDict d => Ok (bool_decide (is_Some (d !! key)))
  | PList l =>
      Ok (existsb (fun x => match x with
                            | PStr s => bool_decide (s = key)
                            | _ => false
                            end) l)
  | PStr s => Ok (is_substring key s)
  | _ => Raise TypeError
  end.

(** [v[key]] for a str [key]. *)
Definition py_getitem (v : pyval) (key : pystr) : res pyval :=
  match v with
  | PDict d => match d !! key with Some x => Ok x | None => Raise KeyError end
  | _ => Raise TypeError
  end.

(** ** ElementTree *)

(** What [ET.fromstring] builds, reduced to the parts the code reads. *)
Inductive element :=
| Element (tag : pystr) (text : option pystr) (children : list element).

Definition tag_of (e : element) : pystr := match e with Element t _ _ => t end.
Definition text_of (e : element) : option pystr :=
  match e with Element _ t _ => t end.

(** All elements below [e] in document order, [e] itself excluded. *)
Fixpoint descendants (e : element) : list element :=
  match e with
  | Element _ _ cs => flat_map (fun c => c :: descendants c) cs
  end.

(** [root.find('.//' + tag)] *)
Definition find_descendant (tag : pystr) (root : element) : option element :=
  head (filter (fun e => tag_of e = tag) (descendants root)).

(** ** HTTP *)

Record request := Request {
  url : pystr;
  params : list (pystr * pystr);
  timeout : Z
}.

(** A [requests.Response]: the status and what the two decoders used by the
    code make of the body; [None] stands for a body the decoder rejects. *)
Record response := Response {
  status_code : Z;
  json : option pyval;
  xml : option element
}.

(** What [session.get] does: raise, or hand back a response. *)
Inductive transport :=
| Fails (e : exn)
| Replies (r : response).

(** ** The world *)

(** A path is the list of its components, as [PurePath] compares them. *)
Definition path := list pystr.

Inductive node :=
| File (content : pystr)
| Dir.

Inductive event :=
| EvGet (r : request)
| EvTags (p : path)
| EvSleep (d : Q).

Record world := World {
  fs : gmap path node;
  log : list event
}.

Definition log_event (e : event) (w : world) : world :=
  {| fs := fs w; log := log w ++ [e] |}.

(** Outcome of [open(p, 'w')] followed by one [write]. *)
Inductive write_outcome :=
| Written
| OpenFailed
| WriteFailed (remains : pystr).

(** Everything outside the program. *)
Record environment := Environment {
  (** the network: the reply to a request, given what happened before *)
  net : list event -> request -> transport;
  (** the tag reader behind [extract_metadata] *)
  read_tags : path -> option pystr * option pystr;
  (** the disk, when a sidecar is written *)
  disk : path -> pystr -> write_outcome;
  (** [str.isalnum] of one character above U+007F *)
  uni_isalnum : N -> bool;
  (** [requests.utils.quote], which raises on a string it cannot encode *)
  quote : pystr -> res pystr;
  (** [json.loads] on a str; [None] when it raises *)
  json_loads : pystr -> option pyval
}.

(** ** Computations: world passing with exceptions *)

Definition M (A : Type) : Type := world -> res A * world.

Definition ret {A} (a : A) : M A := fun w => (Ok a, w).

Definition bind {A B} (m : M A) (k : A -> M B) : M B :=
  fun w => match m w with
           | (Ok a, w') => k a w'
           | (Raise e, w') => (Raise e, w')
           end.

Definition raise {A} (e : exn) : M A := fun w => (Raise e, w).

Definition lift {A} (r : res A) : M A := fun w => (r, w).

(** [try: m except Exception: h] *)
Definition try_except {A} (m : M A) (h : exn -> M A) : M A :=
  fun w => match m w with
           | (Ok a, w') => (Ok a, w')
           | (Raise e, w') => h e w'
           end.

Notation "'let*' x ':=' m 'in' k" := (bind m (fun x => k))
  (at level 10, x name, m at level 100, k at level 200).

(** ** LyricsFetcher *)

Record LyricsFetcher := {
  api_sources : list pystr
}.

(** [LyricsFetcher.__init__] *)
Definition LyricsFetcher_init : LyricsFetcher :=
  {| api_sources := [str "lrclib"; str "lyrics.ovh"] |}.

Section Fetcher.

Variable env : environment.

(** [self.session.get(url, params=..., timeout=...)] *)
Definition session_get (r : request) : M response :=
  fun w =>
    match net env (log w) r with
    | Fails e => (Raise e, log_event (EvGet r) w)
    | Replies resp => (Ok resp, log_event (EvGet r) w)
    end.

(** [response.json()] *)
Definition response_json (r : response) : M pyval :=
  match json r with
  | Some v => ret v
  | None => raise JSONDecodeError
  end.

(** [ET.fromstring(response.content)] *)
Definition ET_fromstring (r : response) : M element :=
  match xml r with
  | Some e => ret e
  | None => raise ParseError
  end.

Definition fetch_lyrics_lrclib (self : LyricsFetcher) (artist title : pystr)
  : M pyval :=
  try_except
    (let url := str "https://lrclib.net/api/search" in
     let params := [(str "artist_name", artist); (str "track_name", title)] in
     let* response := session_get (Request url params 10) in
     if status_code response =? 200 then
       let* data := response_json response in
       let* nonempty :=
         (if truthy data
          then let* n := lift (py_len data) in ret (0 <? n)
          else ret false) in
       if nonempty then
         let* first := lift (py_item0 data) in
         let* plain := lift (py_get first (str "plainLyrics") (PStr [])) in
         let* lyrics :=
           (if truthy plain then ret plain
            else let* first' := lift (py_item0 data) in
                 lift (py_get first' (str "syncedLyrics") (PStr []))) in
         if truthy lyrics then ret lyrics else ret PNone
       else ret PNone
     else ret PNone)
    (fun _ => ret PNone).

Definition fetch_lyrics_chartlyrics (self : LyricsFetcher)
  (artist title : pystr) : M pyval :=
  try_except
    (let url := str "http://api.chartlyrics.com/apiv1.asmx/SearchLyricDirect" in
     let params := [(str "artist", artist); (str "song", title)] in
     let* response := session_get (Request url params 10) in
     if status_code response =? 200 then
       let* root := ET_fromstring response in
       match find_descendant (str "{http://api.chartlyrics.com/}Lyric") root with
       | Some lyrics =>
           match text_of lyrics with
           | Some (c :: t) => ret (PStr (c :: t))
           | _ => ret PNone
           end
       | None => ret PNone
       end
     else ret PNone)
    (fun _ => ret PNone).

Definition fetch_lyrics_ovh (self : LyricsFetcher) (artist title : pystr)
  : M pyval :=
  try_except
    (let url := str "https://api.lyrics.ovh/v1/" ++ artist ++ str "/" ++ title in
     let* response := session_get (Request url [] 10) in
     if status_code response =? 200 then
       let* data := response_json response in
       let* lyrics := lift (py_get data (str "lyrics") (PStr [])) in
       if truthy lyrics then ret lyrics else ret PNone
     else ret PNone)
    (fun _ => ret PNone).

(** [json.loads(v)]: a str is parsed, anything else is a [TypeError]. *)
Definition py_json_loads (v : pyval) : M pyval :=
  match v with
  | PStr s => match json_loads env s with
              | Some x => ret x
              | None => raise JSONDecodeError
              end
  | _ => raise TypeError
  end.

Definition fetch_lyrics_api (self : LyricsFetcher) (artist title : pystr)
  : M pyval :=
  try_except
    (let* artist_encoded := lift (quote env artist) in
     let* title_encoded := lift (quote env title) in
     let url :=
       str "https://api.allorigins.win/get?url=https://api.lyrics.ovh/v1/"
       ++ artist_encoded ++ str "/" ++ title_encoded in
     let* response := session_get (Request url [] 30) in
     if status_code response =? 200 then
       let* data := response_json response in
       let* has := lift (py_contains (str "contents") data) in
       if has then
         let* raw := lift (py_getitem data (str "contents")) in
         let* contents := py_json_loads raw in
         let* lyrics := lift (py_get contents (str "lyrics") (PStr [])) in
         if truthy lyrics then ret lyrics else ret PNone
       else ret PNone
     else ret PNone)
    (fun _ => ret PNone).

(** One character of the class [[^\w\s-]] of a str pattern. *)
Definition is_word (c : N) : bool :=
  (if c <? 128
   then (48 <=? c) && (c <=? 57) || (65 <=? c) && (c <=? 90)
        || (97 <=? c) && (c <=? 122) || (c =? 95)
   else uni_isalnum env c)%N.

Definition kept (c : N) : bool := is_word c || isspace c || (c =? 45)%N.

(** [re.sub(r'[^\w\s-]', '', s).strip()] *)
Definition clean (s : pystr) : pystr := strip (List.filter kept s).

(** [return lyrics.strip()] *)
Definition return_stripped (lyrics : pyval) : M (option pystr) :=
  let* s := lift (py_strip lyrics) in ret (Some s).

(** The result is a str ([Some]) or [None]. *)
Definition fetch_lyrics (self : LyricsFetcher) (artist title : pystr)
  : M (option pystr) :=
  let artist_clean := clean artist in
  let title_clean := clean title in
  let* lyrics := fetch_lyrics_lrclib self artist title in
  if truthy lyrics then return_stripped lyrics else
  let* lyrics := fetch_lyrics_chartlyrics self artist title in
  if truthy lyrics then return_stripped lyrics else
  let* lyrics := fetch_lyrics_ovh self artist_clean title_clean in
  if truthy lyrics then return_stripped lyrics else
  ret None.

End Fetcher.

(** ** Paths *)

(** [name.rfind(c)] *)
Fixpoint rfind (c : N) (s : pystr) : option nat :=
  match s with
  | [] => None
  | x :: s' =>
      match rfind c s' with
      | Some i => Some (S i)
      | None => if (x =? c)%N then Some O else None
      end
  end.

(** [PurePath.suffix] of a final component. *)
Definition suffix (name : pystr) : pystr :=
  match rfind 46 name with
  | Some i =>
      if ((0 <? i) && (i <? length name - 1))%nat then drop i name else []
  | None => []
  end.

(** The root of an absolute path, ['/'] or ['//'], is a component of its
    own: one made of slashes. *)
Definition is_anchor (c : pystr) : bool := forallb (N.eqb 47) c.

(** [PurePath.name]: the final component, and [''] when that is the
    anchor. *)
Definition name_of (p : path) : pystr :=
  let final := List.last p [] in
  if is_anchor final then [] else final.

(** [p.with_suffix(suf)] for a well-formed [suf]. *)
Definition with_suffix (p : path) (suf : pystr) : res path :=
  match name_of p with
  | [] => Raise ValueError
  | name =>
      let old_suffix := suffix name in
      let name' :=
        match old_suffix with
        | [] => name ++ suf
        | _ => take (length name - length old_suffix) name ++ suf
        end in
      Ok (removelast p ++ [name'])
  end.

(** [fnmatch] for patterns made of [*], [?] and literal characters. *)
Fixpoint fnmatch (pat name : pystr) : bool :=
  match pat with
  | [] => match name with [] => true | _ => false end
  | c :: pat' =>
      if (c =? 42)%N then
        (fix star (n : pystr) : bool :=
           fnmatch pat' n
           || match n with [] => false | _ :: n' => star n' end) name
      else
        match name with
        | [] => false
        | x :: name' => ((c =? 63) || (c =? x))%N && fnmatch pat' name'
        end
  end.

(** The order of [PurePath.__lt__]: component lists compared
    lexicographically, components by code point. *)
Definition path_lt : relation path := @lexico (list (list N)) _.
Definition path_le (p q : path) : Prop := p = q \/ path_lt p q.

#[global] Instance path_le_dec (p q : path) : Decision (path_le p q).
Proof. unfold path_le, path_lt. apply _. Defined.

(** ** AudioParser *)

Record AudioParser := {
  directory : path;
  delay : Q;
  lyrics_fetcher : LyricsFetcher;
  processed : Z;
  found : Z;
  errors : Z
}.

(** [AudioParser.__init__], [directory] already resolved. *)
Definition AudioParser_init (directory : path) (delay : Q) : AudioParser :=
  {| directory := directory; delay := delay;
     lyrics_fetcher := LyricsFetcher_init;
     processed := 0; found := 0; errors := 0 |}.

Definition add_found (self : AudioParser) : AudioParser :=
  {| directory := directory self; delay := delay self;
     lyrics_fetcher := lyrics_fetcher self;
     processed := processed self; found := found self + 1;
     errors := errors self |}.

Definition add_errors (self : AudioParser) : AudioParser :=
  {| directory := directory self; delay := delay self;
     lyrics_fetcher := lyrics_fetcher self;
     processed := processed self; found := found self;
     errors := errors self + 1 |}.

Definition add_processed (self : AudioParser) : AudioParser :=
  {| directory := directory self; delay := delay self;
     lyrics_fetcher := lyrics_fetcher self;
     processed := processed self + 1; found := found self;
     errors := errors self |}.

(** [bool(s)] for a value that is a str or [None]. *)
Definition present (s : option pystr) : bool :=
  match s with
  | Some (_ :: _) => true
  | _ => false
  end.

Definition the_str (s : option pystr) : pystr := default [] s.

(** [p.exists()] *)
Definition path_exists (p : path) : M bool :=
  fun w => (Ok (bool_decide (is_Some (fs w !! p))), w).

(** [time.sleep(d)]: a negative length is a [ValueError]. *)
Definition sleep (d : Q) : M unit :=
  fun w =>
    if Qle_bool (0 # 1) d then (Ok tt, log_event (EvSleep d) w)
    else (Raise ValueError, w).

Definition set_file (p : path) (s : pystr) (w : world) : world :=
  {| fs := <[p := File s]> (fs w); log := log w |}.

(** [for x in l: s = body(s, x)] *)
Fixpoint for_each {A S} (l : list A) (body : S -> A -> M S) (s : S) : M S :=
  match l with
  | [] => ret s
  | x :: l' => let* s' := body s x in for_each l' body s'
  end.

Fixpoint strip_prefix (pre p : path) : option (list pystr) :=
  match pre, p with
  | [], _ => Some p
  | a :: pre', b :: p' => if decide (a = b) then strip_prefix pre' p' else None
  | _ :: _, [] => None
  end.

(** [p.is_dir()] *)
Definition is_dir (m : gmap path node) (p : path) : bool :=
  match m !! p with
  | Some Dir => true
  | _ => false
  end.

(** Every directory the walk goes through on the way down is one. *)
Fixpoint dirs_along (m : gmap path node) (cur : path) (rest : list pystr)
  : bool :=
  match rest with
  | [] => true
  | c :: rest' =>
      is_dir m cur && dirs_along m (cur ++ [c]) rest'
  end.

(** [p] is an entry strictly below [root] that a recursive walk reaches. *)
Definition below (m : gmap path node) (root p : path) : bool :=
  match strip_prefix root p with
  | Some (c :: rest) => dirs_along m root (c :: rest)
  | _ => false
  end.

(** [root.rglob(pattern)], files and directories alike, in no particular
    order. *)
Definition rglob (root : path) (pattern : pystr) : M (list path) :=
  fun w =>
    (Ok (List.filter (fun p => below (fs w) root p && fnmatch pattern (name_of p))
           (map fst (map_to_list (fs w)))), w).

Definition patterns : list pystr :=
  [str "*.flac"; str "*.FLAC"; str "*.mp3"; str "*.MP3";
   str "*.m4a"; str "*.M4A"; str "*.mp4"; str "*.MP4"].

Section Parser.

Variable env : environment.

(** [extract_metadata]: the tag libraries are outside the program, and
    every exception is caught inside, so all that is left is its yield. *)
Definition extract_metadata (self : AudioParser) (audio_path : path)
  : M (option pystr * option pystr) :=
  fun w => (Ok (read_tags env audio_path), log_event (EvTags audio_path) w).

(** [with open(p, 'w', encoding='utf-8') as f: f.write(s)] *)
Definition open_write (p : path) (s : pystr) : M unit :=
  fun w =>
    match fs w !! p with
    | Some Dir => (Raise OSError, w)
    | _ =>
        match disk env p s with
        | Written => (Ok tt, set_file p s w)
        | OpenFailed => (Raise OSError, w)
        | WriteFailed rest => (Raise OSError, set_file p rest w)
        end
    end.

Definition save_lyrics (self : AudioParser) (audio_path : path)
  (lyrics : pystr) : M bool :=
  let* txt_path := lift (with_suffix audio_path (str ".txt")) in
  try_except
    (let* _ := open_write txt_path lyrics in ret true)
    (fun _ => ret false).

Definition process_audio_file (self : AudioParser) (audio_path : path)
  : M AudioParser :=
  let* txt_path := lift (with_suffix audio_path (str ".txt")) in
  let* ex := path_exists txt_path in
  if ex then ret self else
  let* meta := extract_metadata self audio_path in
  let artist := fst meta in
  let title := snd meta in
  if negb (present artist) || negb (present title)
  then ret (add_errors self) else
  let* lyrics :=
    fetch_lyrics env (lyrics_fetcher self) (the_str artist) (the_str title) in
  let* self :=
    (if present lyrics then
       let* saved := save_lyrics self audio_path (the_str lyrics) in
       if saved then ret (add_found self) else ret self
     else ret (add_errors self)) in
  let self := add_processed self in
  let* _ := sleep (delay self) in
  ret self.

(** [for pattern in pats: audio_files.extend(root.rglob(pattern))] *)
Fixpoint gather (root : path) (pats : list pystr) (audio_files : list path)
  : M (list path) :=
  match pats with
  | [] => ret audio_files
  | pattern :: pats' =>
      let* more := rglob root pattern in
      gather root pats' (audio_files ++ more)
  end.

(** [sorted(l)] *)
Definition sorted (l : list path) : list path := merge_sort path_le l.

Definition process_directory (self : AudioParser) : M AudioParser :=
  let* ex := path_exists (directory self) in
  if negb ex then ret self else
  let* audio_files := gather (directory self) patterns [] in
  let audio_files := elements (list_to_set audio_files : gset path) in
  match audio_files with
  | [] => ret self
  | _ => for_each (sorted audio_files) process_audio_file self
  end.

End Parser.

(** ** The requests each source sends *)

Definition lrclib_request (artist title : pystr) : request :=
  Request (str "https://lrclib.net/api/search")
    [(str "artist_name", artist); (str "track_name", title)] 10.

Definition chartlyrics_request (artist title : pystr) : request :=
  Request (str "http://api.chartlyrics.com/apiv1.asmx/SearchLyricDirect")
    [(str "artist", artist); (str "song", title)] 10.

Definition ovh_request (artist title : pystr) : request :=
  Request (str "https://api.lyrics.ovh/v1/" ++ artist ++ str "/" ++ title)
    [] 10.

Definition api_request (artist_encoded title_encoded : pystr) : request :=
  Request
    (str "https://api.allorigins.win/get?url=https://api.lyrics.ovh/v1/"
     ++ artist_encoded ++ str "/" ++ title_encoded) [] 30.

(** The [.txt] sibling of an audio file is there. *)
Definition has_sidecar (m : gmap path node) (audio_path : path) : bool :=
  match with_suffix audio_path (str ".txt") with
  | Ok txt_path => bool_decide (is_Some (m !! txt_path))
  | Raise _ => false
  end.

(** The files one run of [process_directory] visits, in order. *)
Definition discovered (m : gmap path node) (root : path) : list path :=
  match fst (gather root patterns [] {| fs := m; log := [] |}) with
  | Ok audio_files => sorted (elements (list_to_set audio_files : gset path))
  | Raise _ => []
  end.

(** The end of [process_audio_file]: the file counts as processed, then
    the sleep, which raises on a negative delay. *)
Definition finish (self : AudioParser) (w : world)
  : res AudioParser * world :=
  if Qle_bool (0 # 1) (delay self)
  then (Ok (add_processed self), log_event (EvSleep (delay self)) w)
  else (Raise ValueError, w).

(** What is left of [process_audio_file] once [fetch_lyrics] has returned
    [lyrics] for a file without sidecar: the write, the counters, the
    sleep. *)
Definition after_fetch (env : environment) (self : AudioParser)
  (txt_path : path) (lyrics : option pystr) (w : world)
  : res AudioParser * world :=
  if present lyrics then
    match disk env txt_path (the_str lyrics) with
    | Written =>
        finish (add_found self) (set_file txt_path (the_str lyrics) w)
    | OpenFailed => finish self w
    | WriteFailed rest => finish self (set_file txt_path rest w)
    end
  else finish (add_errors self) w.

(** ** Scenarios *)

Module Scenario.

Definition not_found : response :=
  {| status_code := 404; json := None; xml := None |}.

(** LRCLIB answers with one candidate whose [plainLyrics] is [lyrics]. *)
Definition lrclib_reply (lyrics : pyval) : response :=
  {| status_code := 200;
     json := Some (PList [PDict {[ str "plainLyrics" := lyrics ]}]);
     xml := None |}.

Definition lrclib_only (lyrics : pyval) : list event -> request -> transport :=
  fun _ r =>
    if decide (url r = str "https://lrclib.net/api/search")
    then Replies (lrclib_reply lyrics)
    else Replies not_found.

Definition nothing_anywhere : list event -> request -> transport :=
  fun _ _ => Replies not_found.

Definition scenario (network : list event -> request -> transport)
  (tags : option pystr * option pystr) (d : write_outcome) : environment :=
  {| net := network;
     read_tags := fun _ => tags;
     disk := fun _ _ => d;
     uni_isalnum := fun _ => false;
     quote := fun s => Ok s;
     json_loads := fun _ => None |}.

Definition tagged : option pystr * option pystr :=
  (Some (str "Test Artist"), Some (str "Test Song")).

Definition untagged : option pystr * option pystr := (None, None).

Definition music : path := [str "/"; str "music"].

Definition song_flac : path := music ++ [str "song.flac"].
Definition song_txt : path := music ++ [str "song.txt"].
Definition untagged_mp3 : path := music ++ [str "untagged.mp3"].
Definition other_mp3 : path := music ++ [str "other.mp3"].

Definition one_song : world :=
  {| fs := {[ music := Dir; song_flac := File [] ]}; log := [] |}.

Definition two_untagged : world :=
  {| fs := {[ music := Dir; other_mp3 := File []; untagged_mp3 := File [] ]};
     log := [] |}.

Definition mixed_case : world :=
  {| fs := {[ music := Dir; music ++ [str "Song.Flac"] := File [] ]};
     log := [] |}.

Definition with_lyrics : world :=
  {| fs := {[ music := Dir; song_flac := File [];
              song_txt := File (str "old words") ]};
     log := [] |}.

Definition parser : AudioParser := AudioParser_init music (2 # 1).

(** LRCLIB and ChartLyrics have nothing, lyrics.ovh has padded text. *)
Definition ovh_padded : environment :=
  scenario
    (fun _ r =>
       if decide (url r = str "https://api.lyrics.ovh/v1/A/B")
       then Replies {| status_code := 200;
                       json := Some (PDict {[ str "lyrics" :=
                                                PStr (str " La la la ") ]});
                       xml := None |}
       else Replies not_found)
    tagged Written.

(** LRCLIB's text ends in a line break. *)
Definition lrclib_newline : environment :=
  scenario (lrclib_only (PStr (str "La la la" ++ [10%N]))) tagged Written.

(** LRCLIB has the text of the end-to-end scenario. *)
Definition lrclib_la : environment :=
  scenario (lrclib_only (PStr (str "La la la"))) tagged Written.

(** LRCLIB's candidate carries a number where the text should be. *)
Definition lrclib_number : environment :=
  scenario (lrclib_only (PInt 42)) tagged Written.

(** No source has anything. *)
Definition silent : environment := scenario nothing_anywhere tagged Written.

(** No tags in any file. *)
Definition no_tags : environment := scenario nothing_anywhere untagged Written.

(** LRCLIB has the text, the disk refuses the file. *)
Definition read_only : environment :=
  scenario (lrclib_only (PStr (str "La la la"))) tagged OpenFailed.

End Scenario.

(** ** Tag reading *)

(** The body of [AudioParser.extract_metadata].  The tag library is outside
    the program: what it makes of a file is a parameter, and so is
    [str.lower] on a string with a character above U+007F.  The yield of
    [extract_metadata] below is what [read_tags] stands for. *)
Module Tags.

(** What [FLAC(path)], [MP3(path)] or [MP4(path)] gives: an exception, or
    an object whose [tags] is [None] or a mapping from keys to the values
    stored under them. *)
Inductive mutagen_file :=
| Unreadable (e : exn)
| Loaded (tags : option (gmap pystr (list pystr))).

Record library := Library {
  FLAC : path -> mutagen_file;
  MP3 : path -> mutagen_file;
  MP4 : path -> mutagen_file;
  uni_lower : pystr -> pystr
}.

Definition ascii_lower (c : N) : N :=
  (if (65 <=? c) && (c <=? 90) then c + 32 else c)%N.

(** [s.lower()] *)
Definition lower (lib : library) (s : pystr) : pystr :=
  if forallb (fun c => c <? 128)%N s then map ascii_lower s
  else uni_lower lib s.

Definition rbind {A B} (r : res A) (k : A -> res B) : res B :=
  match r with
  | Ok a => k a
  | Raise e => Raise e
  end.

Notation "'let?' x ':=' r 'in' k" := (rbind r (fun x => k))
  (at level 10, x name, r at level 100, k at level 200).

Definition load (f : mutagen_file)
  : res (option (gmap pystr (list pystr))) :=
  match f with
  | Unreadable e => Raise e
  | Loaded tags => Ok tags
  end.

(** [l[0]] *)
Definition item0 {A} (l : list A) : res A :=
  match l with
  | x :: _ => Ok x
  | [] => Raise IndexError
  end.

(** [bool(audio.tags)]: no tags at all, or none stored. *)
Definition has_tags (tags : option (gmap pystr (list pystr))) : bool :=
  match tags with
  | Some d => negb (bool_decide (d = ∅))
  | None => false
  end.

(** [d.get(key, [None])[0]] on a mapping that is there. *)
Definition get_first (d : gmap pystr (list pystr)) (key : pystr)
  : res (option pystr) :=
  item0 (match d !! key with
         | Some l => Some <$> l
         | None => [None]
         end).

(** [audio.get(key, [None])[0]]: a file without tags has no key. *)
Definition file_get_first (tags : option (gmap pystr (list pystr)))
  (key : pystr) : res (option pystr) :=
  match tags with
  | Some d => get_first d key
  | None => item0 [None]
  end.

(** [str(d.get(key, [''])[0]) if key in d else None] *)
Definition frame_text (d : gmap pystr (list pystr)) (key : pystr)
  : res (option pystr) :=
  if bool_decide (is_Some (d !! key)) then
    let? x := item0 (default [[]] (d !! key)) in Ok (Some x)
  else Ok None.

Definition extract_metadata_body (lib : library) (audio_path : path)
  : res (option pystr * option pystr) :=
  let suffix := lower lib (suffix (name_of audio_path)) in
  if decide (suffix = str ".flac") then
    let? audio := load (FLAC lib audio_path) in
    let? a := file_get_first audio (str "artist") in
    let? artist :=
      (if present a then Ok a else file_get_first audio (str "ARTIST")) in
    let? t := file_get_first audio (str "title") in
    let? title :=
      (if present t then Ok t else file_get_first audio (str "TITLE")) in
    Ok (artist, title)
  else if decide (suffix = str ".mp3") then
    let? audio := load (MP3 lib audio_path) in
    if has_tags audio then
      let d := default ∅ audio in
      let? artist := frame_text d (str "TPE1") in
      let? title := frame_text d (str "TIT2") in
      Ok (artist, title)
    else Ok (None, None)
  else if decide (suffix = str ".m4a" \/ suffix = str ".mp4") then
    let? audio := load (MP4 lib audio_path) in
    let? artist :=
      (if has_tags audio
       then get_first (default ∅ audio) (169%N :: str "ART")
       else Ok None) in
    let? title :=
      (if has_tags audio
       then get_first (default ∅ audio) (169%N :: str "nam")
       else Ok None) in
    Ok (artist, title)
  else Ok (None, None).

(** [try: ... except Exception: return None, None] *)
Definition extract_metadata (lib : library) (audio_path : path)
  : option pystr * option pystr :=
  match extract_metadata_body lib audio_path with
  | Ok yield => yield
  | Raise _ => (None, None)
  end.

(** An environment whose tag reader is [extract_metadata] over [lib]. *)
Definition reading (lib : library) (env : environment) : environment :=
  {| net := net env;
     read_tags := extract_metadata lib;
     disk := disk env;
     uni_isalnum := uni_isalnum env;
     quote := quote env;
     json_loads := json_loads env |}.

End Tags.

(** ** The entry point *)

(** How a call of [main] ends: [sys.exit(code)], a normal return (the
    parser is kept for its counters), or an exception nobody caught. *)
Inductive main_outcome :=
| Exit (code : Z)
| Returned (self : AudioParser)
| Uncaught (e : exn).

(** [main], with [sys.argv] as [argv] and
    [Path(directory).expanduser().resolve()], which may raise, as
    [resolve]. *)
Definition main (env : environment) (resolve : pystr -> res path)
  (argv : list pystr) : world -> main_outcome * world :=
  fun w =>
    if (length argv <? 2)%nat then (Exit 1, w)
    else
      let directory := nth 1 argv [] in
      match resolve directory with
      | Raise e => (Uncaught e, w)
      | Ok root =>
          let parser := AudioParser_init root (2 # 1) in
          match process_directory env parser w with
          | (Ok self, w') => (Returned self, w')
          | (Raise e, w') => (Uncaught e, w')
          end
      end.

(** [m'] is [m] with new files whose names end in [.txt], and nothing
    else changed. *)
Definition only_sidecars_added (m m' : gmap path node) : Prop :=
  forall q,
    m' !! q = m !! q
    \/ (m !! q = None /\ (exists text, m' !! q = Some (File text))
        /\ str ".txt" `suffix_of` name_of q).

(** ** Reading the log *)

Definition is_sleep (e : event) : bool :=
  match e with
  | EvSleep _ => true
  | _ => false
  end.

Definition is_request (e : event) : bool :=
  match e with
  | EvGet _ => true
  | _ => false
  end.

(** How many events of a kind the log holds. *)
Definition count (kind : event -> bool) (l : list event) : Z :=
  Z.of_nat (length (List.filter kind l)).

(** ** More scenarios *)

Module Cases.

Import Scenario.

(** LRCLIB has two candidates: the first with synced lyrics only, the
    second with plain lyrics. *)
Definition two_candidates_reply : response :=
  {| status_code := 200;
     json := Some (PList
                     [PDict {[ str "syncedLyrics" := PStr (str "[00:01] La") ]};
                      PDict {[ str "plainLyrics" := PStr (str "Other") ]}]);
     xml := None |}.

Definition two_candidates : environment :=
  scenario (fun _ _ => Replies two_candidates_reply) tagged Written.

(** Every service answers 200 with an empty list. *)
Definition empty_reply : response :=
  {| status_code := 200; json := Some (PList []); xml := None |}.

Definition empty_everywhere : environment :=
  scenario (fun _ _ => Replies empty_reply) tagged Written.

(** ChartLyrics' document: the song's title, then its lyrics. *)
Definition lyric_document : element :=
  Element (str "{http://api.chartlyrics.com/}GetLyricResult") None
    [Element (str "{http://api.chartlyrics.com/}LyricSong")
       (Some (str "Test Song")) [];
     Element (str "{http://api.chartlyrics.com/}Lyric")
       (Some (str "La la la")) []].

Definition chartlyrics_reply : response :=
  {| status_code := 200; json := None; xml := Some lyric_document |}.

Definition chartlyrics_hit : environment :=
  scenario (fun _ _ => Replies chartlyrics_reply) tagged Written.

(** LRCLIB's text is two blanks and a line break. *)
Definition blank_lrclib : environment :=
  scenario (lrclib_only (PStr [32%N; 32%N; 10%N])) tagged Written.

Definition song_mp3 : path := music ++ [str "song.mp3"].

(** [song.flac] and [song.mp3] side by side. *)
Definition twins : world :=
  {| fs := {[ music := Dir; song_flac := File []; song_mp3 := File [] ]};
     log := [] |}.

(** A library that reads no file. *)
Definition deaf : Tags.library :=
  {| Tags.FLAC := fun _ => Tags.Unreadable OSError;
     Tags.MP3 := fun _ => Tags.Unreadable OSError;
     Tags.MP4 := fun _ => Tags.Unreadable OSError;
     Tags.uni_lower := fun s => s |}.

(** A library that finds the same tags in every file. *)
Definition finding (tags : gmap pystr (list pystr)) : Tags.library :=
  {| Tags.FLAC := fun _ => Tags.Loaded (Some tags);
     Tags.MP3 := fun _ => Tags.Loaded (Some tags);
     Tags.MP4 := fun _ => Tags.Loaded (Some tags);
     Tags.uni_lower := fun s => s |}.

Definition both_cases : gmap pystr (list pystr) :=
  {[ str "artist" := [str "Test Artist"]; str "ARTIST" := [str "Other"];
     str "title" := [str "Test Song"] ]}.

Definition upper_case_artist : gmap pystr (list pystr) :=
  {[ str "ARTIST" := [str "Test Artist"]; str "title" := [str "Test Song"] ]}.

Definition id3_frames : gmap pystr (list pystr) :=
  {[ str "TPE1" := [str "Test Artist"]; str "TIT2" := [str "Test Song"] ]}.

(** [Path(directory).expanduser().resolve()] for a name given relative to
    the root; a name that starts with a tilde is a user nobody knows. *)
Definition resolve (directory : pystr) : res path :=
  match directory with
  | 126%N :: _ => Raise RuntimeError
  | _ => Ok [str "/"; directory]
  end.

(** A parser whose delay is negative. *)
Definition hasty : AudioParser := AudioParser_init music (-1 # 1).

(** [requests.utils.quote] encodes to UTF-8 first, which a lone surrogate
    (U+D800 to U+DFFF) does not survive. *)
Definition strict_quote (s : pystr) : res pystr :=
  if forallb (fun c => (c <? 55296) || (57343 <? c))%N s then Ok s
  else Raise UnicodeEncodeError.

(** The end-to-end scenario with that [quote]. *)
Definition strict : environment :=
  {| net := net lrclib_la;
     read_tags := read_tags lrclib_la;
     disk := disk lrclib_la;
     uni_isalnum := uni_isalnum lrclib_la;
     quote := strict_quote;
     json_loads := json_loads lrclib_la |}.

End Cases.

(** * Properties *)

(** ** The sources *)

Ltac break_match :=
  match goal with
  | |- context [match ?x with _ => _ end] =>
      lazymatch x with
      | context [match _ with _ => _ end] => fail
      | _ => destruct x eqn:?
      end
  end.

Arguments str : simpl never.

Ltac run_source :=
  unfold try_except, bind, session_get, response_json, ET_fromstring,
    py_json_loads, lift, ret, raise;
  repeat (break_match; simplify_eq/=);
  (eexists; split; [reflexivity|]); auto;
  try (right; do 2 eexists; reflexivity).

Section Sources.

Variable env : environment.
Variable self : LyricsFetcher.

(** Each source sends its one request and comes back with a value; the value
    is [None] or truthy. *)
Lemma fetch_lyrics_lrclib_run artist title w :
  exists v,
    fetch_lyrics_lrclib env self artist title w
    = (Ok v, log_event (EvGet (lrclib_request artist title)) w)
    /\ (v = PNone \/ truthy v = true).
Proof. unfold fetch_lyrics_lrclib, lrclib_request. run_source. Qed.

Lemma fetch_lyrics_chartlyrics_run artist title w :
  exists v,
    fetch_lyrics_chartlyrics env self artist title w
    = (Ok v, log_event (EvGet (chartlyrics_request artist title)) w)
    /\ (v = PNone \/ exists c s, v = PStr (c :: s)).
Proof. unfold fetch_lyrics_chartlyrics, chartlyrics_request. run_source. Qed.

Lemma fetch_lyrics_ovh_run artist title w :
  exists v,
    fetch_lyrics_ovh env self artist title w
    = (Ok v, log_event (EvGet (ovh_request artist title)) w)
    /\ (v = PNone \/ truthy v = true).
Proof. unfold fetch_lyrics_ovh, ovh_request. run_source. Qed.

(** The aggregator route sends its request once both names are quoted;
    when quoting raises, no request goes out. *)
Lemma fetch_lyrics_api_run artist title w :
  match quote env artist, quote env title with
  | Ok artist_encoded, Ok title_encoded =>
      exists v,
        fetch_lyrics_api env self artist title w
        = (Ok v,
           log_event (EvGet (api_request artist_encoded title_encoded)) w)
        /\ (v = PNone \/ truthy v = true)
  | _, _ => fetch_lyrics_api env self artist title w = (Ok PNone, w)
  end.
Proof.
  unfold fetch_lyrics_api, api_request, try_except, bind at 1, lift at 1.
  destruct (quote env artist) as [artist_encoded|]; [|done].
  unfold bind at 1, lift at 1.
  destruct (quote env title) as [title_encoded|]; [|done].
  run_source.
Qed.

(** A transport error, a status other than 200, a body that does not decode
    and an empty payload all end in [None]. *)
Lemma fetch_lyrics_lrclib_failure artist title w :
  match net env (log w) (lrclib_request artist title) with
  | Fails _ => True
  | Replies r =>
      status_code r <> 200 \/ json r = None
      \/ exists data, json r = Some data /\ truthy data = false
  end ->
  fst (fetch_lyrics_lrclib env self artist title w) = Ok PNone.
Proof.
  unfold fetch_lyrics_lrclib, lrclib_request. intros H.
  unfold try_except, bind, session_get, response_json, lift, ret, raise.
  destruct (net env _ _) as [e|r]; simpl; [done|].
  destruct (Z.eqb_spec (status_code r) 200) as [E|E]; [|done].
  destruct H as [H|[H|(data & H & Hd)]]; [done| |]; rewrite H; simpl; [done|].
  by rewrite Hd.
Qed.

Lemma fetch_lyrics_ovh_failure artist title w :
  match net env (log w) (ovh_request artist title) with
  | Fails _ => True
  | Replies r =>
      status_code r <> 200 \/ json r = None
      \/ exists data, json r = Some data /\ truthy data = false
  end ->
  fst (fetch_lyrics_ovh env self artist title w) = Ok PNone.
Proof.
  unfold fetch_lyrics_ovh, ovh_request. intros H.
  unfold try_except, bind, session_get, response_json, lift, ret, raise.
  destruct (net env _ _) as [e|r]; simpl; [done|].
  destruct (Z.eqb_spec (status_code r) 200) as [E|E]; [|done].
  destruct H as [H|[H|(data & H & Hd)]]; [done| |]; rewrite H; simpl; [done|].
  destruct data as [| | | | |l|d]; simpl in *; try done.
  apply negb_false_iff, bool_decide_eq_true in Hd. subst d.
  by rewrite lookup_empty.
Qed.

Lemma fetch_lyrics_chartlyrics_failure artist title w :
  match net env (log w) (chartlyrics_request artist title) with
  | Fails _ => True
  | Replies r => status_code r <> 200 \/ xml r = None
  end ->
  fst (fetch_lyrics_chartlyrics env self artist title w) = Ok PNone.
Proof.
  unfold fetch_lyrics_chartlyrics, chartlyrics_request. intros H.
  unfold try_except, bind, session_get, ET_fromstring, lift, ret, raise.
  destruct (net env _ _) as [e|r]; simpl; [done|].
  destruct (Z.eqb_spec (status_code r) 200) as [E|E]; [|done].
  destruct H as [H|H]; [done|]. by rewrite H.
Qed.

End Sources.

(** ** The fallback sequence *)

Section Chain.

Variable env : environment.
Variable self : LyricsFetcher.

Lemma truthy_PStr s : s <> [] -> truthy (PStr s) = true.
Proof. by destruct s. Qed.

Lemma log_event_log e w : log (log_event e w) = log w ++ [e].
Proof. done. Qed.

Lemma log_event_fs e w : fs (log_event e w) = fs w.
Proof. done. Qed.

(** [fetch_lyrics] never touches the file system, and its first request
    always goes out. *)
Lemma fetch_lyrics_fs artist title w :
  fs (snd (fetch_lyrics env self artist title w)) = fs w.
Proof.
  unfold fetch_lyrics, return_stripped, bind, lift, ret.
  destruct (fetch_lyrics_lrclib_run env self artist title w)
    as (v1 & -> & _).
  destruct (truthy v1); [by destruct (py_strip v1)|].
  destruct (fetch_lyrics_chartlyrics_run env self artist title
              (log_event (EvGet (lrclib_request artist title)) w))
    as (v2 & -> & _).
  destruct (truthy v2); [by destruct (py_strip v2)|].
  destruct (fetch_lyrics_ovh_run env self (clean env artist) (clean env title)
              (log_event (EvGet (chartlyrics_request artist title))
                 (log_event (EvGet (lrclib_request artist title)) w)))
    as (v3 & -> & _).
  destruct (truthy v3); [by destruct (py_strip v3)|done].
Qed.

Lemma fetch_lyrics_sends artist title w :
  exists more,
    log (snd (fetch_lyrics env self artist title w))
    = log w ++ EvGet (lrclib_request artist title) :: more.
Proof.
  unfold fetch_lyrics, return_stripped, bind, lift, ret.
  destruct (fetch_lyrics_lrclib_run env self artist title w)
    as (v1 & -> & _).
  destruct (truthy v1); [destruct (py_strip v1); by exists []|].
  destruct (fetch_lyrics_chartlyrics_run env self artist title
              (log_event (EvGet (lrclib_request artist title)) w))
    as (v2 & -> & _).
  destruct (truthy v2);
    [destruct (py_strip v2); simpl; rewrite <- app_assoc; by eexists|].
  destruct (fetch_lyrics_ovh_run env self (clean env artist) (clean env title)
              (log_event (EvGet (chartlyrics_request artist title))
                 (log_event (EvGet (lrclib_request artist title)) w)))
    as (v3 & -> & _).
  destruct (truthy v3); [destruct (py_strip v3)|];
    simpl; rewrite <- !app_assoc; by eexists.
Qed.

(** [self] plays no part: the sequence is the same whatever [api_sources]
    holds. *)
Lemma fetch_lyrics_ignores_api_sources (other : LyricsFetcher) artist title :
  fetch_lyrics env other artist title = fetch_lyrics env self artist title.
Proof. reflexivity. Qed.

(** C1, as amended: [fetch_lyrics] asks LRCLIB, then ChartLyrics, then
    lyrics.ovh (the last with the cleaned artist and title).  The first
    source that comes back with a text decides: the result is that text
    with the white space around it stripped, and no request goes to a later
    source.  The result is [None] exactly when all three came back with
    [None]. *)
Theorem fetch_lyrics_first_present artist title w v1 w1 v2 w2 v3 w3 :
  fetch_lyrics_lrclib env self artist title w = (Ok v1, w1) ->
  fetch_lyrics_chartlyrics env self artist title w1 = (Ok v2, w2) ->
  fetch_lyrics_ovh env self (clean env artist) (clean env title) w2
  = (Ok v3, w3) ->
  (forall s, v1 = PStr s -> s <> [] ->
     fetch_lyrics env self artist title w = (Ok (Some (strip s)), w1)
     /\ log w1 = log w ++ [EvGet (lrclib_request artist title)])
  /\ (forall s, v1 = PNone -> v2 = PStr s -> s <> [] ->
        fetch_lyrics env self artist title w = (Ok (Some (strip s)), w2)
        /\ log w2 = log w ++ [EvGet (lrclib_request artist title);
                              EvGet (chartlyrics_request artist title)])
  /\ (forall s, v1 = PNone -> v2 = PNone -> v3 = PStr s -> s <> [] ->
        fetch_lyrics env self artist title w = (Ok (Some (strip s)), w3)
        /\ log w3 = log w ++ [EvGet (lrclib_request artist title);
                              EvGet (chartlyrics_request artist title);
                              EvGet (ovh_request (clean env artist)
                                       (clean env title))])
  /\ (fst (fetch_lyrics env self artist title w) = Ok None
      <-> v1 = PNone /\ v2 = PNone /\ v3 = PNone).
Proof.
  intros E1 E2 E3.
  destruct (fetch_lyrics_lrclib_run env self artist title w)
    as (v1' & E1' & T1).
  destruct (fetch_lyrics_chartlyrics_run env self artist title w1)
    as (v2' & E2' & T2).
  destruct (fetch_lyrics_ovh_run env self (clean env artist)
              (clean env title) w2) as (v3' & E3' & T3).
  rewrite E1 in E1'. rewrite E2 in E2'. rewrite E3 in E3'.
  injection E1' as <- ->. injection E2' as <- ->. injection E3' as <- ->.
  unfold fetch_lyrics, return_stripped, bind, lift, ret.
  rewrite E1.
  split; [|split; [|split]].
  - intros s -> Hs. rewrite truthy_PStr by done. done.
  - intros s -> -> Hs. simpl. rewrite E2, truthy_PStr by done. simpl.
    by rewrite <- app_assoc.
  - intros s -> -> -> Hs. simpl. rewrite E2. simpl. rewrite E3.
    rewrite truthy_PStr by done. simpl. by rewrite <- !app_assoc.
  - split.
    + destruct (truthy v1) eqn:Hv1.
      { destruct (py_strip v1); simpl; discriminate. }
      rewrite E2. destruct (truthy v2) eqn:Hv2.
      { destruct (py_strip v2); simpl; discriminate. }
      rewrite E3. destruct (truthy v3) eqn:Hv3.
      { destruct (py_strip v3); simpl; discriminate. }
      intros _. destruct T1 as [?|?], T2 as [?|(?&?&?)], T3 as [?|?];
        subst; simpl in *; try done; congruence.
    + intros (-> & -> & ->). simpl. rewrite E2. simpl. by rewrite E3.
Qed.

End Chain.

(** Witness for C1: LRCLIB and ChartLyrics have nothing, lyrics.ovh has
    padded text. *)
Lemma fetch_lyrics_first_present_witness :
  fetch_lyrics Scenario.ovh_padded LyricsFetcher_init (str "A") (str "B")
    Scenario.one_song
  = (Ok (Some (str "La la la")),
     log_event (EvGet (ovh_request (str "A") (str "B")))
       (log_event (EvGet (chartlyrics_request (str "A") (str "B")))
          (log_event (EvGet (lrclib_request (str "A") (str "B")))
             Scenario.one_song))).
Proof.
  refine (proj1 (proj1 (proj2 (proj2
    (fetch_lyrics_first_present Scenario.ovh_padded LyricsFetcher_init
       (str "A") (str "B") Scenario.one_song
       PNone _ PNone _ (PStr (str " La la la ")) _ _ _ _)))
    (str " La la la ") eq_refl eq_refl eq_refl _));
    [vm_compute; reflexivity .. | discriminate].
Defined.

(** C1, as the claim words it: the value the source returned, unchanged.
    LRCLIB's text ends in a line break; the result does not. *)
Lemma fetch_lyrics_returns_source_value_counterexample :
  ~ (forall env self artist title w s,
       fst (fetch_lyrics_lrclib env self artist title w) = Ok (PStr s) ->
       s <> [] ->
       fst (fetch_lyrics env self artist title w) = Ok (Some s)).
Proof.
  intros H.
  specialize (H Scenario.lrclib_newline
                LyricsFetcher_init (str "Test Artist") (str "Test Song")
                Scenario.one_song (str "La la la" ++ [10%N])).
  vm_compute in H. specialize (H eq_refl ltac:(discriminate)).
  discriminate H.
Qed.

(** C3: the comment on [api_sources] calls the list the priority order, with
    two entries; [fetch_lyrics] does not read it and, when nothing is found,
    has asked three services, ChartLyrics second. *)
Theorem fetch_lyrics_asks_outside_api_sources :
  api_sources LyricsFetcher_init = [str "lrclib"; str "lyrics.ovh"]
  /\ log (snd (fetch_lyrics Scenario.silent LyricsFetcher_init
                 (str "A") (str "B") Scenario.one_song))
     = [EvGet (lrclib_request (str "A") (str "B"));
        EvGet (chartlyrics_request (str "A") (str "B"));
        EvGet (ovh_request (str "A") (str "B"))].
Proof. split; vm_compute; reflexivity. Qed.

(** C7: LRCLIB answers 200 with [[{"plainLyrics": 42}]].  The source hands
    the number back instead of [None]; [fetch_lyrics] then calls [strip] on
    it, and the [AttributeError] ends the whole run. *)
Theorem lrclib_returns_malformed_lyrics :
  fst (fetch_lyrics_lrclib Scenario.lrclib_number LyricsFetcher_init
         (str "Test Artist") (str "Test Song") Scenario.one_song)
  = Ok (PInt 42)
  /\ fst (fetch_lyrics Scenario.lrclib_number LyricsFetcher_init
            (str "Test Artist") (str "Test Song") Scenario.one_song)
     = Raise AttributeError
  /\ fst (process_directory Scenario.lrclib_number Scenario.parser
            Scenario.one_song)
     = Raise AttributeError.
Proof. repeat split; vm_compute; reflexivity. Qed.

(** ** One audio file *)

Section OneFile.

Variable env : environment.

Implicit Types (self : AudioParser) (w : world).
Implicit Types (audio_path txt_path : path).

Lemma process_audio_file_skip self audio_path txt_path w :
  with_suffix audio_path (str ".txt") = Ok txt_path ->
  is_Some (fs w !! txt_path) ->
  process_audio_file env self audio_path w = (Ok self, w).
Proof.
  intros Hs Hx. unfold process_audio_file, bind, lift, path_exists, ret.
  rewrite Hs. simpl. by rewrite bool_decide_eq_true_2.
Qed.

Lemma process_audio_file_no_name self audio_path e w :
  with_suffix audio_path (str ".txt") = Raise e ->
  process_audio_file env self audio_path w = (Raise e, w).
Proof.
  intros Hs. unfold process_audio_file, bind, lift. by rewrite Hs.
Qed.

Lemma process_audio_file_untagged self audio_path txt_path w :
  with_suffix audio_path (str ".txt") = Ok txt_path ->
  fs w !! txt_path = None ->
  present (fst (read_tags env audio_path)) = false
  \/ present (snd (read_tags env audio_path)) = false ->
  process_audio_file env self audio_path w
  = (Ok (add_errors self), log_event (EvTags audio_path) w).
Proof.
  intros Hs Hx Ht.
  unfold process_audio_file, bind, lift, path_exists, extract_metadata, ret.
  rewrite Hs. simpl. rewrite bool_decide_eq_false_2
    by (rewrite Hx; by intros [? ?]).
  simpl. by destruct Ht as [-> | ->]; simpl; rewrite ?orb_true_r.
Qed.

Lemma process_audio_file_tagged self audio_path txt_path w :
  with_suffix audio_path (str ".txt") = Ok txt_path ->
  fs w !! txt_path = None ->
  present (fst (read_tags env audio_path)) = true ->
  present (snd (read_tags env audio_path)) = true ->
  process_audio_file env self audio_path w
  = match fetch_lyrics env (lyrics_fetcher self)
            (the_str (fst (read_tags env audio_path)))
            (the_str (snd (read_tags env audio_path)))
            (log_event (EvTags audio_path) w) with
    | (Ok lyrics, w2) => after_fetch env self txt_path lyrics w2
    | (Raise e, w2) => (Raise e, w2)
    end.
Proof.
  intros Hs Hx Ha Ht.
  unfold process_audio_file, bind, lift, path_exists, extract_metadata, ret.
  rewrite Hs. simpl. rewrite bool_decide_eq_false_2
    by (rewrite Hx; by intros [? ?]).
  simpl. rewrite Ha, Ht. simpl.
  pose proof (fetch_lyrics_fs env (lyrics_fetcher self)
                (the_str (fst (read_tags env audio_path)))
                (the_str (snd (read_tags env audio_path)))
                (log_event (EvTags audio_path) w)) as Hfs.
  destruct (fetch_lyrics _ _ _ _ _) as [[lyrics|e] w2]; [|done].
  simpl in Hfs. unfold after_fetch, finish, sleep.
  destruct (present lyrics); [|simpl; by destruct (Qle_bool _ _)].
  unfold save_lyrics, try_except, bind, lift, open_write, ret.
  rewrite Hs. simpl. rewrite Hfs, Hx.
  destruct (disk env txt_path (the_str lyrics)); simpl;
    by destruct (Qle_bool _ _).
Qed.

End OneFile.

(** ** Sidecar paths *)

Lemma rfind_absent c (s : pystr) : c ∉ s -> rfind c s = None.
Proof.
  induction s as [|x s IH]; [done|]. intros H.
  apply not_elem_of_cons in H as [Hx Hs]. simpl. rewrite IH by done.
  destruct (N.eqb_spec x c); congruence.
Qed.

Lemma rfind_last_dot c (a b : pystr) :
  c ∉ b -> rfind c (a ++ c :: b) = Some (length a).
Proof.
  intros Hb. induction a as [|x a IH]; simpl.
  - by rewrite rfind_absent, N.eqb_refl.
  - by rewrite IH.
Qed.

Lemma suffix_of_name (stem ext : pystr) :
  stem <> [] -> ext <> [] -> 46%N ∉ ext ->
  suffix (stem ++ 46%N :: ext) = 46%N :: ext.
Proof.
  intros Hstem Hext Hdot. unfold suffix. rewrite rfind_last_dot by done.
  destruct stem as [|c stem]; [done|]. destruct ext as [|d ext]; [done|].
  replace ((0 <? length (c :: stem))%nat
           && (length (c :: stem)
               <? length ((c :: stem) ++ 46%N :: d :: ext) - 1)%nat)
    with true.
  - by rewrite drop_app_length.
  - symmetry. apply andb_true_iff. split; apply Nat.ltb_lt;
      rewrite ?length_app; simpl; lia.
Qed.

(** A component that holds anything but slashes is a name. *)
Lemma not_anchor (c : pystr) x : x ∈ c -> x <> 47%N -> is_anchor c = false.
Proof.
  intros Hin Hx. unfold is_anchor. apply not_true_iff_false. intros Hall.
  rewrite forallb_forall in Hall. apply list_elem_of_In in Hin.
  apply Hall, N.eqb_eq in Hin. congruence.
Qed.

Lemma name_of_final (parent : path) (name : pystr) :
  is_anchor name = false -> name_of (parent ++ [name]) = name.
Proof. intros H. unfold name_of. by rewrite last_last, H. Qed.

Lemma with_suffix_named (p : path) (name suf : pystr) :
  name_of p = name -> name <> [] ->
  with_suffix p suf
  = Ok (removelast p
        ++ [match suffix name with
            | [] => name ++ suf
            | _ => take (length name - length (suffix name)) name ++ suf
            end]).
Proof. unfold with_suffix. intros <- Hn. by destruct (name_of p). Qed.

(** The sidecar of [parent/stem.ext] is [parent/stem.txt]. *)
Lemma with_suffix_txt (parent : path) (stem ext : pystr) :
  stem <> [] -> ext <> [] -> 46%N ∉ ext ->
  with_suffix (parent ++ [stem ++ str "." ++ ext]) (str ".txt")
  = Ok (parent ++ [stem ++ str ".txt"]).
Proof.
  intros Hstem Hext Hdot.
  change (stem ++ str "." ++ ext) with (stem ++ 46%N :: ext).
  rewrite (with_suffix_named _ (stem ++ 46%N :: ext)).
  - rewrite removelast_last, suffix_of_name by done. do 3 f_equal.
    replace (length (stem ++ 46%N :: ext) - length (46%N :: ext))%nat
      with (length stem) by (rewrite length_app; simpl; lia).
    by rewrite take_app_length.
  - apply name_of_final, (not_anchor _ 46%N); [set_solver|done].
  - by destruct stem.
Qed.

(** The end of a file's processing leaves the file system alone; it
    returns after the sleep or raises before it. *)
Lemma finish_fs (self : AudioParser) (w : world) :
  fs (snd (finish self w)) = fs w.
Proof. unfold finish. by destruct (Qle_bool _ _). Qed.

Lemma finish_cases (self : AudioParser) (w : world) :
  finish self w
  = (Ok (add_processed self), log_event (EvSleep (delay self)) w)
  \/ finish self w = (Raise ValueError, w).
Proof. unfold finish. destruct (Qle_bool _ _); auto. Qed.

Section Claims.

Variable env : environment.

Implicit Types (self : AudioParser) (w : world).
Implicit Types (audio_path txt_path : path).

(** C2: when the [.txt] sibling is already there, [process_audio_file]
    returns at once: the file system (the sidecar's contents with it) is as
    before, nothing is logged (no tag read, no request), and [found] and
    [errors] keep their values. *)
Theorem existing_sidecar_left_alone self audio_path txt_path w :
  with_suffix audio_path (str ".txt") = Ok txt_path ->
  is_Some (fs w !! txt_path) ->
  exists self' w',
    process_audio_file env self audio_path w = (Ok self', w')
    /\ fs w' = fs w
    /\ fs w' !! txt_path = fs w !! txt_path
    /\ log w' = log w
    /\ found self' = found self
    /\ errors self' = errors self.
Proof.
  intros Hs Hx. exists self, w.
  by rewrite (process_audio_file_skip env self audio_path txt_path w).
Qed.

(** C6: when the tags give no artist or no title, the only thing logged is
    the tag read (so no request: [fetch_lyrics] was not called), the file
    system is as before, and [errors] has grown by one. *)
Theorem missing_metadata_is_one_error self audio_path txt_path w :
  with_suffix audio_path (str ".txt") = Ok txt_path ->
  fs w !! txt_path = None ->
  present (fst (read_tags env audio_path)) = false
  \/ present (snd (read_tags env audio_path)) = false ->
  exists self' w',
    process_audio_file env self audio_path w = (Ok self', w')
    /\ log w' = log w ++ [EvTags audio_path]
    /\ fs w' = fs w
    /\ errors self' = errors self + 1
    /\ found self' = found self
    /\ processed self' = processed self.
Proof.
  intros Hs Hx Ht. eexists _, _.
  by rewrite (process_audio_file_untagged env self audio_path txt_path w).
Qed.

(** A delay that is not negative lets the sleep return. *)
Lemma finish_returns self w :
  (0 <= delay self)%Q ->
  finish self w
  = (Ok (add_processed self), log_event (EvSleep (delay self)) w).
Proof.
  intros Hd. unfold finish. by rewrite (proj2 (Qle_bool_iff _ _) Hd).
Qed.

(** What is left after [fetch_lyrics], for such a delay. *)
Lemma after_fetch_returns self txt_path lyrics w :
  (0 <= delay self)%Q ->
  after_fetch env self txt_path lyrics w
  = if present lyrics then
      match disk env txt_path (the_str lyrics) with
      | Written =>
          (Ok (add_processed (add_found self)),
           log_event (EvSleep (delay self))
             (set_file txt_path (the_str lyrics) w))
      | OpenFailed =>
          (Ok (add_processed self), log_event (EvSleep (delay self)) w)
      | WriteFailed rest =>
          (Ok (add_processed self),
           log_event (EvSleep (delay self)) (set_file txt_path rest w))
      end
    else
      (Ok (add_processed (add_errors self)),
       log_event (EvSleep (delay self)) w).
Proof.
  intros Hd. unfold after_fetch.
  destruct (present lyrics); [destruct (disk env txt_path _)|];
    by rewrite finish_returns.
Qed.

(** The first source with a text decides what [fetch_lyrics] returns. *)
Lemma fetch_lyrics_first_text fetcher artist title w v1 w1 v2 w2 v3 w3 s :
  fetch_lyrics_lrclib env fetcher artist title w = (Ok v1, w1) ->
  fetch_lyrics_chartlyrics env fetcher artist title w1 = (Ok v2, w2) ->
  fetch_lyrics_ovh env fetcher (clean env artist) (clean env title) w2
  = (Ok v3, w3) ->
  s <> [] ->
  v1 = PStr s
  \/ (v1 = PNone /\ v2 = PStr s)
  \/ (v1 = PNone /\ v2 = PNone /\ v3 = PStr s) ->
  exists w', fetch_lyrics env fetcher artist title w
             = (Ok (Some (strip s)), w').
Proof.
  intros E1 E2 E3 Hs H.
  unfold fetch_lyrics, return_stripped, bind, lift, ret. rewrite E1.
  destruct H as [->|[(-> & ->)|(-> & -> & ->)]].
  - rewrite truthy_PStr by done. simpl. eauto.
  - simpl. rewrite E2, truthy_PStr by done. simpl. eauto.
  - simpl. rewrite E2. simpl. rewrite E3, truthy_PStr by done. simpl. eauto.
Qed.

(** C4, as amended: once [fetch_lyrics] has been called for a file and has
    returned (lyrics or none, sidecar written or not), the last thing the
    file's processing does is sleep for [delay], a length that is not
    negative, and the next file starts from there. *)
Theorem sleep_follows_every_fetch self audio_path txt_path w lyrics w2 rest :
  (0 <= delay self)%Q ->
  with_suffix audio_path (str ".txt") = Ok txt_path ->
  fs w !! txt_path = None ->
  present (fst (read_tags env audio_path)) = true ->
  present (snd (read_tags env audio_path)) = true ->
  fetch_lyrics env (lyrics_fetcher self)
    (the_str (fst (read_tags env audio_path)))
    (the_str (snd (read_tags env audio_path)))
    (log_event (EvTags audio_path) w) = (Ok lyrics, w2) ->
  exists self' w3,
    process_audio_file env self audio_path w = (Ok self', w3)
    /\ log w3 = log w2 ++ [EvSleep (delay self)]
    /\ for_each (audio_path :: rest) (process_audio_file env) self w
       = for_each rest (process_audio_file env) self' w3.
Proof.
  intros Hd Hs Hx Ha Ht Hf.
  pose proof (process_audio_file_tagged env self audio_path txt_path w
                Hs Hx Ha Ht) as Hp.
  rewrite Hf, after_fetch_returns in Hp by done.
  simpl. unfold bind at 1. rewrite Hp.
  destruct (present lyrics); [destruct (disk env txt_path _)|];
    by eexists _, _.
Qed.

(** C5, as amended: when the first source that comes back with a text
    returns [s], what is left of [s] after stripping is not empty and the
    write goes through, the file written for [parent/stem.ext] is
    [parent/stem.txt] and it holds exactly [s] with the white space around
    it stripped, nothing before or after it; [found] grows by one.  The
    delay is not negative. *)
Theorem sidecar_holds_stripped_source_text
  self parent stem ext audio_path txt_path artist title
  w v1 w1 v2 w2 v3 w3 s :
  stem <> [] -> ext <> [] -> 46%N ∉ ext ->
  audio_path = parent ++ [stem ++ str "." ++ ext] ->
  txt_path = parent ++ [stem ++ str ".txt"] ->
  (0 <= delay self)%Q ->
  fs w !! txt_path = None ->
  read_tags env audio_path = (Some artist, Some title) ->
  artist <> [] -> title <> [] ->
  fetch_lyrics_lrclib env (lyrics_fetcher self) artist title
    (log_event (EvTags audio_path) w) = (Ok v1, w1) ->
  fetch_lyrics_chartlyrics env (lyrics_fetcher self) artist title w1
  = (Ok v2, w2) ->
  fetch_lyrics_ovh env (lyrics_fetcher self) (clean env artist)
    (clean env title) w2 = (Ok v3, w3) ->
  v1 = PStr s
  \/ (v1 = PNone /\ v2 = PStr s)
  \/ (v1 = PNone /\ v2 = PNone /\ v3 = PStr s) ->
  strip s <> [] ->
  disk env txt_path (strip s) = Written ->
  exists self' w',
    process_audio_file env self audio_path w = (Ok self', w')
    /\ fs w' = <[txt_path := File (strip s)]> (fs w)
    /\ fs w' !! txt_path = Some (File (strip s))
    /\ found self' = found self + 1.
Proof.
  intros Hstem Hext Hdot -> -> Hd Hx Htags Ha Ht E1 E2 E3 Hfirst Hstrip Hw.
  assert (s <> []) as Hs by (intros ->; by apply Hstrip).
  pose proof (with_suffix_txt parent stem ext Hstem Hext Hdot) as Hsuf.
  assert (present (fst (read_tags env (parent ++ [stem ++ str "." ++ ext])))
          = true) as Ha' by (rewrite Htags; by destruct artist).
  assert (present (snd (read_tags env (parent ++ [stem ++ str "." ++ ext])))
          = true) as Ht' by (rewrite Htags; by destruct title).
  pose proof (process_audio_file_tagged env self
                (parent ++ [stem ++ str "." ++ ext])
                (parent ++ [stem ++ str ".txt"]) w Hsuf Hx Ha' Ht') as Hp.
  rewrite Htags in Hp.
  change (the_str (fst (Some artist, Some title))) with artist in Hp.
  change (the_str (snd (Some artist, Some title))) with title in Hp.
  destruct (fetch_lyrics_first_text (lyrics_fetcher self) artist title
              _ v1 w1 v2 w2 v3 w3 s E1 E2 E3 Hs Hfirst) as (w' & Hf).
  pose proof (fetch_lyrics_fs env (lyrics_fetcher self) artist title
                (log_event (EvTags (parent ++ [stem ++ str "." ++ ext])) w))
    as Hfs.
  rewrite Hf in Hp, Hfs. simpl in Hfs.
  rewrite after_fetch_returns in Hp by done. rewrite Hp.
  destruct (strip s) as [|c l] eqn:Hl; [done|]. simpl. simpl in Hw.
  rewrite Hw. eexists _, _. split; [reflexivity|]. simpl. rewrite Hfs.
  by rewrite lookup_insert_eq.
Qed.

(** C10: when [fetch_lyrics] returns a text but the sidecar cannot be
    written, [found] and [errors] keep their values, [processed] grows by
    one, and the loop goes on with the remaining files.  The delay is not
    negative. *)
Theorem failed_write_counts_as_processed_only
  self audio_path txt_path w lyrics w2 rest :
  (0 <= delay self)%Q ->
  with_suffix audio_path (str ".txt") = Ok txt_path ->
  fs w !! txt_path = None ->
  present (fst (read_tags env audio_path)) = true ->
  present (snd (read_tags env audio_path)) = true ->
  fetch_lyrics env (lyrics_fetcher self)
    (the_str (fst (read_tags env audio_path)))
    (the_str (snd (read_tags env audio_path)))
    (log_event (EvTags audio_path) w) = (Ok (Some lyrics), w2) ->
  lyrics <> [] ->
  disk env txt_path lyrics <> Written ->
  exists self' w3,
    process_audio_file env self audio_path w = (Ok self', w3)
    /\ found self' = found self
    /\ errors self' = errors self
    /\ processed self' = processed self + 1
    /\ for_each (audio_path :: rest) (process_audio_file env) self w
       = for_each rest (process_audio_file env) self' w3.
Proof.
  intros Hdelay Hs Hx Ha Ht Hf Hl Hd.
  pose proof (process_audio_file_tagged env self _ _ w Hs Hx Ha Ht) as Hp.
  rewrite Hf, after_fetch_returns in Hp by done.
  simpl. unfold bind at 1. rewrite Hp.
  destruct lyrics as [|c lyrics]; [done|]. simpl. simpl in Hd.
  destruct (disk env txt_path (c :: lyrics)); [done| |]; by eexists _, _.
Qed.

End Claims.

(** ** The claims on concrete runs *)

(** C2 on [song.flac] next to an older [song.txt]. *)
Lemma existing_sidecar_left_alone_witness :
  exists self' w',
    process_audio_file Scenario.lrclib_la Scenario.parser Scenario.song_flac
      Scenario.with_lyrics = (Ok self', w')
    /\ fs w' = fs Scenario.with_lyrics
    /\ fs w' !! Scenario.song_txt = fs Scenario.with_lyrics !! Scenario.song_txt
    /\ log w' = log Scenario.with_lyrics
    /\ found self' = found Scenario.parser
    /\ errors self' = errors Scenario.parser.
Proof.
  apply (existing_sidecar_left_alone Scenario.lrclib_la Scenario.parser
           Scenario.song_flac Scenario.song_txt Scenario.with_lyrics).
  - vm_compute. reflexivity.
  - vm_compute. eexists. reflexivity.
Defined.

(** C6 on [untagged.mp3]. *)
Lemma missing_metadata_is_one_error_witness :
  exists self' w',
    process_audio_file Scenario.no_tags Scenario.parser Scenario.untagged_mp3
      Scenario.two_untagged = (Ok self', w')
    /\ log w' = log Scenario.two_untagged ++ [EvTags Scenario.untagged_mp3]
    /\ fs w' = fs Scenario.two_untagged
    /\ errors self' = errors Scenario.parser + 1
    /\ found self' = found Scenario.parser
    /\ processed self' = processed Scenario.parser.
Proof.
  apply (missing_metadata_is_one_error Scenario.no_tags Scenario.parser
           Scenario.untagged_mp3 (Scenario.music ++ [str "untagged.txt"])
           Scenario.two_untagged).
  - vm_compute. reflexivity.
  - vm_compute. reflexivity.
  - left. vm_compute. reflexivity.
Defined.

(** C4 on a tagged file no service knows. *)
Lemma sleep_follows_every_fetch_witness :
  exists self' w3,
    process_audio_file Scenario.silent Scenario.parser Scenario.song_flac
      Scenario.one_song = (Ok self', w3)
    /\ log w3
       = log (snd (fetch_lyrics Scenario.silent LyricsFetcher_init
                     (str "Test Artist") (str "Test Song")
                     (log_event (EvTags Scenario.song_flac)
                        Scenario.one_song)))
         ++ [EvSleep (delay Scenario.parser)]
    /\ for_each [Scenario.song_flac] (process_audio_file Scenario.silent)
         Scenario.parser Scenario.one_song
       = for_each [] (process_audio_file Scenario.silent) self' w3.
Proof.
  apply (sleep_follows_every_fetch Scenario.silent Scenario.parser
           Scenario.song_flac Scenario.song_txt Scenario.one_song None
           (snd (fetch_lyrics Scenario.silent LyricsFetcher_init
                   (str "Test Artist") (str "Test Song")
                   (log_event (EvTags Scenario.song_flac)
                      Scenario.one_song)))
           []);
    first [vm_compute; reflexivity | vm_compute; discriminate].
Defined.

(** With a negative delay the sleep raises: the file has been counted, and
    the exception ends the run. *)
Lemma negative_delay_raises :
  process_audio_file Scenario.silent Cases.hasty Scenario.song_flac
    Scenario.one_song
  = (Raise ValueError,
     snd (fetch_lyrics Scenario.silent LyricsFetcher_init
            (str "Test Artist") (str "Test Song")
            (log_event (EvTags Scenario.song_flac) Scenario.one_song))).
Proof. vm_compute. reflexivity. Qed.

(** C4 as the claim words it: two files without tags, one after the other,
    and no sleep in between or after. *)
Lemma sleep_after_missing_metadata_counterexample :
  process_directory Scenario.no_tags Scenario.parser Scenario.two_untagged
  = (Ok (add_errors (add_errors Scenario.parser)),
     log_event (EvTags Scenario.untagged_mp3)
       (log_event (EvTags Scenario.other_mp3) Scenario.two_untagged))
  /\ ~ (exists d,
          EvSleep d
          ∈ log (snd (process_directory Scenario.no_tags Scenario.parser
                        Scenario.two_untagged))).
Proof.
  assert (process_directory Scenario.no_tags Scenario.parser
            Scenario.two_untagged
          = (Ok (add_errors (add_errors Scenario.parser)),
             log_event (EvTags Scenario.untagged_mp3)
               (log_event (EvTags Scenario.other_mp3) Scenario.two_untagged)))
    as E by (vm_compute; reflexivity).
  split; [exact E|]. rewrite E. intros [d Hd]. simpl in Hd.
  repeat (apply elem_of_cons in Hd as [Hd|Hd]; [discriminate Hd|]).
  by apply elem_of_nil in Hd.
Qed.

(** C5 on the end-to-end scenario: LRCLIB returns "La la la" for
    [song.flac], and [song.txt] holds exactly that. *)
Lemma sidecar_holds_stripped_source_text_witness :
  exists self' w',
    process_audio_file Scenario.lrclib_la Scenario.parser
      (Scenario.music ++ [str "song" ++ str "." ++ str "flac"])
      Scenario.one_song = (Ok self', w')
    /\ fs w' = <[Scenario.music ++ [str "song" ++ str ".txt"]
                 := File (str "La la la")]> (fs Scenario.one_song)
    /\ fs w' !! (Scenario.music ++ [str "song" ++ str ".txt"])
       = Some (File (str "La la la"))
    /\ found self' = found Scenario.parser + 1.
Proof.
  pose (r1 := fetch_lyrics_lrclib Scenario.lrclib_la LyricsFetcher_init
                (str "Test Artist") (str "Test Song")
                (log_event (EvTags Scenario.song_flac) Scenario.one_song)).
  pose (r2 := fetch_lyrics_chartlyrics Scenario.lrclib_la LyricsFetcher_init
                (str "Test Artist") (str "Test Song") (snd r1)).
  pose (r3 := fetch_lyrics_ovh Scenario.lrclib_la LyricsFetcher_init
                (clean Scenario.lrclib_la (str "Test Artist"))
                (clean Scenario.lrclib_la (str "Test Song")) (snd r2)).
  apply (sidecar_holds_stripped_source_text Scenario.lrclib_la
           Scenario.parser Scenario.music (str "song") (str "flac")
           (Scenario.music ++ [str "song" ++ str "." ++ str "flac"])
           (Scenario.music ++ [str "song" ++ str ".txt"])
           (str "Test Artist") (str "Test Song") Scenario.one_song
           (PStr (str "La la la")) (snd r1) PNone (snd r2) PNone (snd r3)
           (str "La la la"));
    try first [discriminate | reflexivity | vm_compute; reflexivity
              | vm_compute; discriminate | left; reflexivity].
  vm_compute. intros H.
  repeat (apply elem_of_cons in H as [H|H]; [discriminate H|]).
  by apply elem_of_nil in H.
Defined.

(** C5 as the claim words it: the text the source returned.  LRCLIB's text
    ends in a line break, the file's does not. *)
Lemma sidecar_holds_source_text_counterexample :
  fst (fetch_lyrics_lrclib Scenario.lrclib_newline LyricsFetcher_init
         (str "Test Artist") (str "Test Song")
         (log_event (EvTags Scenario.song_flac) Scenario.one_song))
  = Ok (PStr (str "La la la" ++ [10%N]))
  /\ fs (snd (process_audio_file Scenario.lrclib_newline Scenario.parser
                Scenario.song_flac Scenario.one_song)) !! Scenario.song_txt
     = Some (File (str "La la la"))
  /\ str "La la la" <> str "La la la" ++ [10%N].
Proof. repeat split; [vm_compute; reflexivity..|discriminate]. Qed.

(** C10 on a disk that refuses the file. *)
Lemma failed_write_counts_as_processed_only_witness :
  exists self' w3,
    process_audio_file Scenario.read_only Scenario.parser Scenario.song_flac
      Scenario.one_song = (Ok self', w3)
    /\ found self' = found Scenario.parser
    /\ errors self' = errors Scenario.parser
    /\ processed self' = processed Scenario.parser + 1
    /\ for_each [Scenario.song_flac; Scenario.untagged_mp3]
         (process_audio_file Scenario.read_only) Scenario.parser
         Scenario.one_song
       = for_each [Scenario.untagged_mp3]
           (process_audio_file Scenario.read_only) self' w3.
Proof.
  apply (failed_write_counts_as_processed_only Scenario.read_only
           Scenario.parser Scenario.song_flac Scenario.song_txt
           Scenario.one_song (str "La la la")
           (snd (fetch_lyrics Scenario.read_only LyricsFetcher_init
                   (str "Test Artist") (str "Test Song")
                   (log_event (EvTags Scenario.song_flac)
                      Scenario.one_song)))
           [Scenario.untagged_mp3]);
    first [vm_compute; reflexivity | vm_compute; discriminate
          | discriminate].
Defined.

(** ** A whole run *)

Section Run.

Variable env : environment.

Implicit Types (self : AudioParser) (w : world) (m : gmap path node).

(** The scan only reads the file system. *)
Lemma gather_reads root pats : forall acc w,
  exists l,
    gather root pats acc w = (Ok l, w)
    /\ gather root pats acc {| fs := fs w; log := [] |}
       = (Ok l, {| fs := fs w; log := [] |}).
Proof.
  induction pats as [|pat pats IH]; intros acc w; simpl.
  - by exists acc.
  - unfold bind, rglob. simpl. apply IH.
Qed.

Lemma process_directory_run self w :
  is_Some (fs w !! directory self) ->
  process_directory env self w
  = for_each (discovered (fs w) (directory self)) (process_audio_file env)
      self w.
Proof.
  intros Hd. unfold process_directory, discovered, bind, path_exists.
  rewrite bool_decide_eq_true_2 by done. cbv beta iota delta [negb].
  destruct (gather_reads (directory self) patterns [] w) as (l & -> & ->).
  cbv beta iota delta [fst]. by destruct (elements _).
Qed.

(** Nothing is ever removed from the file system. *)
Lemma process_audio_file_keeps self audio_path w q :
  is_Some (fs w !! q) ->
  is_Some (fs (snd (process_audio_file env self audio_path w)) !! q).
Proof.
  intros Hq.
  destruct (with_suffix audio_path (str ".txt")) as [txt_path|e] eqn:Hs;
    [|by rewrite (process_audio_file_no_name env self audio_path e w)].
  destruct (fs w !! txt_path) as [n|] eqn:Hx;
    [by rewrite (process_audio_file_skip env self audio_path txt_path w)|].
  destruct (present (fst (read_tags env audio_path))) eqn:Ha;
    [|rewrite (process_audio_file_untagged env self audio_path txt_path w);
      auto].
  destruct (present (snd (read_tags env audio_path))) eqn:Ht;
    [|rewrite (process_audio_file_untagged env self audio_path txt_path w);
      auto].
  rewrite (process_audio_file_tagged env self audio_path txt_path w)
    by done.
  pose proof (fetch_lyrics_fs env (lyrics_fetcher self)
                (the_str (fst (read_tags env audio_path)))
                (the_str (snd (read_tags env audio_path)))
                (log_event (EvTags audio_path) w)) as Hfs.
  destruct (fetch_lyrics _ _ _ _ _) as [[lyrics|e] w2]; simpl in Hfs;
    [|simpl; by rewrite Hfs].
  unfold after_fetch.
  destruct (present lyrics); [destruct (disk env txt_path _)|];
    rewrite finish_fs; simpl; rewrite ?Hfs; try done;
    apply lookup_insert_is_Some';  by right.
Qed.

Lemma for_each_keeps l : forall self w q,
  is_Some (fs w !! q) ->
  is_Some (fs (snd (for_each l (process_audio_file env) self w)) !! q).
Proof.
  induction l as [|p l IH]; intros self w q Hq; [done|].
  simpl. unfold bind.
  pose proof (process_audio_file_keeps self p w q Hq) as Hk.
  destruct (process_audio_file env self p w) as [[self'|e] w']; [|done].
  by apply IH.
Qed.

(** A file whose sidecar is in [m] is skipped wherever it comes in a run
    that starts from a file system holding at least [m]. *)
Lemma for_each_skips_existing m l : forall self w,
  (forall q, is_Some (m !! q) -> is_Some (fs w !! q)) ->
  for_each l (process_audio_file env) self w
  = for_each (List.filter (fun p => negb (has_sidecar m p)) l)
      (process_audio_file env) self w.
Proof.
  induction l as [|p l IH]; intros self w Hm; [done|].
  simpl. destruct (has_sidecar m p) eqn:Hp; simpl.
  - unfold has_sidecar in Hp.
    destruct (with_suffix p (str ".txt")) as [txt_path|] eqn:Hs; [|done].
    apply bool_decide_eq_true in Hp. unfold bind at 1.
    rewrite (process_audio_file_skip env self p txt_path w) by auto.
    by apply IH.
  - unfold bind.
    pose proof (process_audio_file_keeps self p w) as Hk.
    destruct (process_audio_file env self p w) as [[self'|e] w']; [|done].
    apply IH. intros q Hq. by apply Hk, Hm.
Qed.

End Run.

(** ** The scan *)

(** A leading star lets the rest of the pattern start anywhere. *)
Lemma fnmatch_star pat name :
  fnmatch (42%N :: pat) name
  = fnmatch pat name
    || match name with
       | [] => false
       | _ :: name' => fnmatch (42%N :: pat) name'
       end.
Proof. by destruct name. Qed.

Lemma fnmatch_literal lit : forall name,
  42%N ∉ lit -> 63%N ∉ lit ->
  fnmatch lit name = true <-> lit = name.
Proof.
  induction lit as [|c lit IH]; intros name Hstar Hany.
  - destruct name; simpl; split; congruence.
  - apply not_elem_of_cons in Hstar as [Hc1 Hstar].
    apply not_elem_of_cons in Hany as [Hc2 Hany].
    simpl. destruct (N.eqb_spec c 42); [congruence|].
    destruct name as [|x name]; [split; congruence|].
    destruct (N.eqb_spec c 63); [congruence|]. simpl.
    rewrite andb_true_iff, N.eqb_eq, IH by done.
    split; [intros [-> ->]; done | intros [= -> ->]; done].
Qed.

(** [*lit] matches the names that end in [lit]. *)
Lemma fnmatch_star_literal lit name :
  42%N ∉ lit -> 63%N ∉ lit ->
  fnmatch (42%N :: lit) name = true <-> lit `suffix_of` name.
Proof.
  intros Hstar Hany. induction name as [|x name IH];
    rewrite fnmatch_star, orb_true_iff, fnmatch_literal by done.
  - split.
    + intros [->|?]; [done|congruence].
    + intros H. left. by apply suffix_nil_inv in H.
  - rewrite IH. split.
    + intros [->|H]; [done|by apply suffix_cons_r].
    + intros H. destruct lit as [|c lit]; [right; apply suffix_nil|].
      by apply suffix_cons_inv in H.
Qed.

(** Each of the eight patterns is a star and a literal extension. *)
Lemma patterns_match_suffixes pattern :
  pattern ∈ patterns ->
  exists ext,
    pattern = 42%N :: ext
    /\ forall name, fnmatch pattern name = true <-> ext `suffix_of` name.
Proof.
  unfold patterns. intros H.
  repeat (apply elem_of_cons in H as [->|H];
          [eexists; split; [reflexivity|];
           intros name; apply fnmatch_star_literal;
           vm_compute; intros Hin;
           repeat (apply elem_of_cons in Hin as [Hin|Hin];
                   [discriminate Hin|]);
           by apply elem_of_nil in Hin|]).
  by apply elem_of_nil in H.
Qed.

#[global] Instance path_le_total : Total path_le.
Proof.
  intros p q. unfold path_le, path_lt.
  destruct (trichotomy (@lexico (list (list N)) _) p q) as [?|[?|?]]; auto.
Qed.

Section Scan.

Implicit Types (m : gmap path node) (w : world) (p root : path).

Lemma elem_of_rglob root pattern w p :
  p ∈ match fst (rglob root pattern w) with Ok l => l | Raise _ => [] end
  <-> is_Some (fs w !! p) /\ below (fs w) root p = true
      /\ fnmatch pattern (name_of p) = true.
Proof.
  unfold rglob. simpl.
  rewrite list_elem_of_In, filter_In, andb_true_iff, in_map_iff.
  split.
  - intros [((q & n) & <- & Hin) ?]. split; [|done].
    apply list_elem_of_In, elem_of_map_to_list in Hin. simpl. by exists n.
  - intros ([n Hn] & ? & ?). split; [|done].
    exists (p, n). split; [done|].
    by apply list_elem_of_In, elem_of_map_to_list.
Qed.

Lemma elem_of_gather root pats : forall acc w l p,
  fst (gather root pats acc w) = Ok l ->
  p ∈ l
  <-> p ∈ acc
      \/ (is_Some (fs w !! p) /\ below (fs w) root p = true
          /\ exists pattern, pattern ∈ pats
                             /\ fnmatch pattern (name_of p) = true).
Proof.
  induction pats as [|pattern pats IH]; intros acc w l p; simpl.
  - intros [= ->]. split; [auto|].
    intros [?|(_ & _ & ? & H & _)]; [done|by apply elem_of_nil in H].
  - unfold bind. pose proof (elem_of_rglob root pattern w p) as Hr.
    unfold rglob in *. simpl in *. intros Hl.
    rewrite (IH _ _ _ _ Hl), elem_of_app, Hr. split.
    + intros [[?|(?&?&?)]|(?&?&pat&?&?)]; auto.
      * right. repeat split; auto. exists pattern. split; [left|done].
      * right. repeat split; auto. exists pat. split; [by right|done].
    + intros [?|(?&?&pat&Hp&?)]; auto.
      apply elem_of_cons in Hp as [->|?]; [auto|].
      right. repeat split; auto. by exists pat.
Qed.

(** What a run visits: the entries below the root, files and directories
    alike, whose name matches one of the eight patterns. *)
Lemma elem_of_discovered m root p :
  p ∈ discovered m root
  <-> is_Some (m !! p) /\ below m root p = true
      /\ exists pattern, pattern ∈ patterns
                         /\ fnmatch pattern (name_of p) = true.
Proof.
  unfold discovered, sorted.
  destruct (gather_reads root patterns [] {| fs := m; log := [] |})
    as (l & E & _).
  rewrite E. cbv beta iota delta [fst].
  rewrite merge_sort_Permutation, elem_of_elements, elem_of_list_to_set.
  pose proof (elem_of_gather root patterns [] {| fs := m; log := [] |} l p)
    as H.
  rewrite E in H. rewrite (H eq_refl). simpl. split; [|auto].
  intros [H'|?]; [by apply elem_of_nil in H'|done].
Qed.

(** Each of them once, in the order of the paths. *)
Lemma discovered_sorted m root : Sorted path_le (discovered m root).
Proof.
  unfold discovered, sorted. destruct (fst _); [|constructor].
  apply (Sorted_merge_sort path_le).
Qed.

Lemma discovered_NoDup m root : NoDup (discovered m root).
Proof.
  unfold discovered, sorted. destruct (fst _); [|constructor].
  rewrite merge_sort_Permutation. apply NoDup_elements.
Qed.

End Scan.

(** C8: [Song.Flac] has an extension that is a case variant of [flac], and
    the comment above the patterns promises a case-insensitive search; the
    eight patterns cover all-lower and all-upper case only, so the file is
    never visited. *)
Theorem mixed_case_extension_is_missed :
  fnmatch (str "*.flac") (str "Song.Flac") = false
  /\ fnmatch (str "*.FLAC") (str "Song.Flac") = false
  /\ discovered (fs Scenario.mixed_case) Scenario.music = []
  /\ process_directory Scenario.lrclib_la Scenario.parser Scenario.mixed_case
     = (Ok Scenario.parser, Scenario.mixed_case).
Proof. repeat split; vm_compute; reflexivity. Qed.

(** * Further properties *)

(** ** Stripping *)

Lemma lstrip_split (s : pystr) :
  exists pre, s = pre ++ lstrip s /\ forallb isspace pre = true.
Proof.
  induction s as [|c s (pre & E & Hpre)]; [by exists []|].
  simpl. destruct (isspace c) eqn:Hc.
  - exists (c :: pre). simpl. rewrite Hc, Hpre. by rewrite <- E.
  - by exists [].
Qed.

Lemma lstrip_head (s : pystr) c :
  head (lstrip s) = Some c -> isspace c = false.
Proof.
  induction s as [|x s IH]; [done|]. simpl.
  destruct (isspace x) eqn:Hx; [done|]. by intros [= <-].
Qed.

Lemma lstrip_fixed (s : pystr) :
  (forall c, head s = Some c -> isspace c = false) -> lstrip s = s.
Proof.
  destruct s as [|c s]; [done|]. intros H. simpl. by rewrite (H c).
Qed.

Lemma lstrip_blank (s : pystr) : forallb isspace s = true -> lstrip s = [].
Proof.
  induction s as [|c s IH]; [done|]. simpl.
  intros [Hc Hs]%andb_true_iff. by rewrite Hc, IH.
Qed.

Lemma strip_blank (s : pystr) : forallb isspace s = true -> strip s = [].
Proof. intros H. unfold strip, rstrip. by rewrite (lstrip_blank s). Qed.

Lemma last_rev (s : pystr) : last (rev s) = head s.
Proof. destruct s as [|c s]; [done|]. simpl. apply last_snoc. Qed.

Lemma head_rev (s : pystr) : head (rev s) = last s.
Proof. by rewrite <- (rev_involutive s) at 2; rewrite last_rev. Qed.

(** What [strip] leaves starts and ends with a character that is not white
    space. *)
Lemma strip_head (s : pystr) c :
  head (strip s) = Some c -> isspace c = false.
Proof.
  unfold strip, rstrip. intros H.
  destruct (lstrip_split (rev (lstrip s))) as (pre & E & _).
  apply (f_equal (@rev N)) in E. rewrite rev_involutive, rev_app_distr in E.
  apply (lstrip_head s c). rewrite E.
  destruct (rev (lstrip (rev (lstrip s)))); [done|]. exact H.
Qed.

Lemma strip_last (s : pystr) c :
  last (strip s) = Some c -> isspace c = false.
Proof.
  unfold strip, rstrip. intros H.
  apply (lstrip_head (rev (lstrip s)) c). by rewrite <- last_rev.
Qed.

Lemma strip_fixed (s : pystr) :
  (forall c, head s = Some c -> isspace c = false) ->
  (forall c, last s = Some c -> isspace c = false) ->
  strip s = s.
Proof.
  intros Hh Hl. unfold strip, rstrip. rewrite (lstrip_fixed s) by done.
  rewrite lstrip_fixed; [apply rev_involutive|].
  intros c Hc. apply Hl. by rewrite <- head_rev.
Qed.

Lemma strip_idempotent (s : pystr) : strip (strip s) = strip s.
Proof. apply strip_fixed; [apply strip_head | apply strip_last]. Qed.

(** [strip] only drops characters. *)
Lemma strip_sublist (s : pystr) : strip s `sublist_of` s.
Proof.
  unfold strip, rstrip.
  destruct (lstrip_split s) as (pre & E & _).
  destruct (lstrip_split (rev (lstrip s))) as (pre' & E' & _).
  apply (f_equal (@rev N)) in E'. rewrite rev_involutive, rev_app_distr in E'.
  rewrite E at 2. rewrite E' at 2.
  apply sublist_inserts_l, sublist_inserts_r. done.
Qed.

(** ** More on the sources *)

Section MoreSources.

Variable env : environment.
Variable self : LyricsFetcher.

(** X1: whatever the network does, each of the four sources comes back
    without an exception.  The three sources of the fallback sequence have
    then sent exactly one request, their own.  The aggregator route has sent
    its one request when both names could be quoted; when quoting raises it
    answers [None] and no request has gone out. *)
Theorem sources_return_after_one_request artist title w :
  (exists v, fetch_lyrics_lrclib env self artist title w
             = (Ok v, log_event (EvGet (lrclib_request artist title)) w))
  /\ (exists v, fetch_lyrics_chartlyrics env self artist title w
                = (Ok v,
                   log_event (EvGet (chartlyrics_request artist title)) w))
  /\ (exists v, fetch_lyrics_ovh env self artist title w
                = (Ok v, log_event (EvGet (ovh_request artist title)) w))
  /\ match quote env artist, quote env title with
     | Ok artist_encoded, Ok title_encoded =>
         exists v,
           fetch_lyrics_api env self artist title w
           = (Ok v,
              log_event (EvGet (api_request artist_encoded title_encoded))
                w)
     | _, _ => fetch_lyrics_api env self artist title w = (Ok PNone, w)
     end.
Proof.
  destruct (fetch_lyrics_lrclib_run env self artist title w) as (v1 & ? & _).
  destruct (fetch_lyrics_chartlyrics_run env self artist title w)
    as (v2 & ? & _).
  destruct (fetch_lyrics_ovh_run env self artist title w) as (v3 & ? & _).
  pose proof (fetch_lyrics_api_run env self artist title w) as H4.
  repeat split; try (eexists; eassumption).
  destruct (quote env artist); [|done]. destruct (quote env title); [|done].
  destruct H4 as (v4 & ? & _). by exists v4.
Qed.

(** X2: when the request fails or the status is not 200, every source
    answers [None]. *)
Theorem unanswered_request_gives_none artist title w :
  (forall r, match net env (log w) r with
             | Fails _ => True
             | Replies resp => status_code resp <> 200
             end) ->
  fst (fetch_lyrics_lrclib env self artist title w) = Ok PNone
  /\ fst (fetch_lyrics_chartlyrics env self artist title w) = Ok PNone
  /\ fst (fetch_lyrics_ovh env self artist title w) = Ok PNone
  /\ fst (fetch_lyrics_api env self artist title w) = Ok PNone.
Proof.
  intros H.
  assert (forall r, match net env (log w) r with
                    | Fails _ => True
                    | Replies resp => (status_code resp =? 200) = false
                    end) as H'.
  { intros r. specialize (H r). destruct (net env (log w) r); [done|].
    by apply Z.eqb_neq. }
  unfold fetch_lyrics_lrclib, fetch_lyrics_chartlyrics, fetch_lyrics_ovh,
    fetch_lyrics_api, try_except, bind, session_get, lift.
  repeat split;
    try (destruct (quote env artist); [|done];
         destruct (quote env title); [|done]);
    match goal with
    | |- context [net env (log w) ?r] =>
        specialize (H' r); destruct (net env (log w) r); simpl;
        [done|by rewrite H']
    end.
Qed.

(** X3: LRCLIB's answer is read off the first candidate alone: its
    [plainLyrics] when that is truthy, else its [syncedLyrics] when that is
    truthy, else [None]; the other candidates are not looked at. *)
Theorem lrclib_reads_first_candidate artist title w resp d others :
  net env (log w) (lrclib_request artist title) = Replies resp ->
  status_code resp = 200 ->
  json resp = Some (PList (PDict d :: others)) ->
  fst (fetch_lyrics_lrclib env self artist title w)
  = Ok (if truthy (default (PStr []) (d !! str "plainLyrics"))
        then default (PStr []) (d !! str "plainLyrics")
        else if truthy (default (PStr []) (d !! str "syncedLyrics"))
             then default (PStr []) (d !! str "syncedLyrics")
             else PNone).
Proof.
  intros Hn Hs Hj.
  unfold fetch_lyrics_lrclib, try_except, bind, session_get, response_json.
  fold (lrclib_request artist title). rewrite Hn. simpl. rewrite Hs, Hj.
  simpl. unfold default.
  destruct (d !! str "plainLyrics") as [plain|]; simpl.
  - destruct (truthy plain) eqn:Hp; simpl; [by rewrite Hp|].
    destruct (d !! str "syncedLyrics") as [synced|]; simpl; [|done].
    by destruct (truthy synced).
  - destruct (d !! str "syncedLyrics") as [synced|]; simpl; [|done].
    by destruct (truthy synced).
Qed.

(** X4: a payload that decodes to a falsy value (null, false, 0, an empty
    string, list or object) is no lyrics: LRCLIB and lyrics.ovh answer
    [None]. *)
Theorem empty_payload_gives_none artist title w data :
  truthy data = false ->
  (forall r, exists resp,
      net env (log w) r = Replies resp
      /\ status_code resp = 200 /\ json resp = Some data) ->
  fst (fetch_lyrics_lrclib env self artist title w) = Ok PNone
  /\ fst (fetch_lyrics_ovh env self artist title w) = Ok PNone.
Proof.
  intros Hd H. split.
  - apply fetch_lyrics_lrclib_failure.
    destruct (H (lrclib_request artist title)) as (resp & -> & _ & Hj).
    right. right. by exists data.
  - apply fetch_lyrics_ovh_failure.
    destruct (H (ovh_request artist title)) as (resp & -> & _ & Hj).
    right. right. by exists data.
Qed.

(** X5: ChartLyrics' answer is the text of an element below the root whose
    tag is [Lyric] in the service's name space; with no such element below
    the root (the root itself does not count) the answer is [None]. *)
Theorem chartlyrics_reads_lyric_element artist title w resp root :
  net env (log w) (chartlyrics_request artist title) = Replies resp ->
  status_code resp = 200 ->
  xml resp = Some root ->
  (forall s, fst (fetch_lyrics_chartlyrics env self artist title w)
             = Ok (PStr s) ->
     s <> []
     /\ exists e, e ∈ descendants root
                  /\ tag_of e = str "{http://api.chartlyrics.com/}Lyric"
                  /\ text_of e = Some s)
  /\ ((forall e, e ∈ descendants root ->
                 tag_of e <> str "{http://api.chartlyrics.com/}Lyric") ->
      fst (fetch_lyrics_chartlyrics env self artist title w) = Ok PNone).
Proof.
  intros Hn Hs Hx.
  unfold fetch_lyrics_chartlyrics, try_except, bind, session_get,
    ET_fromstring.
  fold (chartlyrics_request artist title). rewrite Hn. simpl.
  rewrite Hs, Hx. simpl. unfold find_descendant.
  destruct (filter _ (descendants root)) as [|e l] eqn:Hf; simpl.
  - split; [done|]. done.
  - assert (e ∈ filter
              (fun e => tag_of e = str "{http://api.chartlyrics.com/}Lyric")
              (descendants root)) as He by (rewrite Hf; left).
    apply list_elem_of_filter in He as [Htag Hin].
    split.
    + intros s. destruct (text_of e) as [[|c t]|] eqn:Ht; simpl; try done.
      intros [= <-]. split; [done|]. by exists e.
    + intros Hno. by destruct (Hno e Hin).
Qed.

(** X6: lyrics.ovh's answer is the [lyrics] entry of the object it sent,
    when that is truthy; a body that decodes to anything but an object, or
    an object without the entry, is [None]. *)
Theorem ovh_reads_lyrics_entry artist title w resp data :
  net env (log w) (ovh_request artist title) = Replies resp ->
  status_code resp = 200 ->
  json resp = Some data ->
  fst (fetch_lyrics_ovh env self artist title w)
  = Ok (match data with
        | PDict d =>
            match d !! str "lyrics" with
            | Some lyrics => if truthy lyrics then lyrics else PNone
            | None => PNone
            end
        | _ => PNone
        end).
Proof.
  intros Hn Hs Hj.
  unfold fetch_lyrics_ovh, try_except, bind, session_get, response_json.
  fold (ovh_request artist title). rewrite Hn. simpl. rewrite Hs, Hj. simpl.
  destruct data; simpl; try done.
  destruct (d !! str "lyrics") as [lyrics|]; simpl; [|done].
  by destruct (truthy lyrics).
Qed.

End MoreSources.

(** ** More on the fallback sequence *)

Section MoreChain.

Variable env : environment.
Variable self : LyricsFetcher.

(** What [fetch_lyrics] adds to the log: one to three requests, in the
    fixed order. *)
Lemma fetch_lyrics_log artist title w :
  exists sent,
    log (snd (fetch_lyrics env self artist title w)) = log w ++ sent
    /\ (sent = [EvGet (lrclib_request artist title)]
        \/ sent = [EvGet (lrclib_request artist title);
                   EvGet (chartlyrics_request artist title)]
        \/ sent = [EvGet (lrclib_request artist title);
                   EvGet (chartlyrics_request artist title);
                   EvGet (ovh_request (clean env artist)
                            (clean env title))]).
Proof.
  unfold fetch_lyrics, return_stripped, bind, lift, ret.
  destruct (fetch_lyrics_lrclib_run env self artist title w)
    as (v1 & -> & _).
  destruct (truthy v1); [destruct (py_strip v1); eauto|].
  destruct (fetch_lyrics_chartlyrics_run env self artist title
              (log_event (EvGet (lrclib_request artist title)) w))
    as (v2 & -> & _).
  destruct (truthy v2);
    [destruct (py_strip v2); simpl; rewrite <- app_assoc; eauto|].
  destruct (fetch_lyrics_ovh_run env self (clean env artist) (clean env title)
              (log_event (EvGet (chartlyrics_request artist title))
                 (log_event (EvGet (lrclib_request artist title)) w)))
    as (v3 & -> & _).
  destruct (truthy v3); [destruct (py_strip v3)|];
    simpl; rewrite <- !app_assoc; eauto 6.
Qed.

(** X7: the aggregator route of [fetch_lyrics_api] is never taken by
    [fetch_lyrics]: it sends between one and three requests, each with the
    ten-second timeout, and none of them is the aggregator's. *)
Theorem fetch_lyrics_never_asks_aggregator artist title w :
  exists sent,
    log (snd (fetch_lyrics env self artist title w)) = log w ++ sent
    /\ (1 <= length sent <= 3)%nat
    /\ Forall (fun e => exists r, e = EvGet r /\ timeout r = 10) sent
    /\ forall a t, EvGet (api_request a t) ∉ sent.
Proof.
  destruct (fetch_lyrics_log artist title w) as (sent & E & Hs).
  exists sent. split; [exact E|].
  assert (Forall (fun e => exists r, e = EvGet r /\ timeout r = 10) sent)
    as Hall.
  { destruct Hs as [->|[->| ->]]; repeat constructor; eexists; eauto. }
  split; [destruct Hs as [->|[->| ->]]; simpl; lia|]. split; [exact Hall|].
  intros a t Hin. rewrite Forall_forall in Hall.
  destruct (Hall _ Hin) as (r & [= <-] & Ht). discriminate Ht.
Qed.

(** X8: a text returned by [fetch_lyrics] neither starts nor ends with a
    white-space character. *)
Theorem fetch_lyrics_result_is_trimmed artist title w s :
  fst (fetch_lyrics env self artist title w) = Ok (Some s) ->
  (forall c, head s = Some c -> isspace c = false)
  /\ (forall c, last s = Some c -> isspace c = false).
Proof.
  unfold fetch_lyrics, return_stripped, bind, lift, ret.
  destruct (fetch_lyrics_lrclib env self artist title w) as [[v1|] w1];
    [|done].
  assert (forall v w', fst (match py_strip v with
                            | Ok a => (Ok (Some a), w')
                            | Raise e => (Raise e, w')
                            end : res (option pystr) * world)
                       = Ok (Some s) ->
          (forall c, head s = Some c -> isspace c = false)
          /\ (forall c, last s = Some c -> isspace c = false)) as Hstrip.
  { intros v w'. destruct v; simpl; try done. intros [= <-].
    split; [apply strip_head|apply strip_last]. }
  destruct (truthy v1); [apply Hstrip|].
  destruct (fetch_lyrics_chartlyrics env self artist title w1)
    as [[v2|] w2]; [|done].
  destruct (truthy v2); [apply Hstrip|].
  destruct (fetch_lyrics_ovh env self _ _ w2) as [[v3|] w3]; [|done].
  destruct (truthy v3); [apply Hstrip|done].
Qed.

(** Cleaning keeps kept characters only. *)
Lemma clean_kept s : Forall (fun c => kept env c = true) (clean env s).
Proof.
  unfold clean. apply Forall_forall. intros c Hc.
  apply (fun H => elem_of_sublist _ _ _ H (strip_sublist _)) in Hc.
  apply list_elem_of_In, filter_In in Hc. tauto.
Qed.

(** X10: the cleaned artist and title hold only word characters, white
    space and hyphens, so no slash, question mark or hash gets into the
    path of the lyrics.ovh request, and there is no white space at either
    end. *)
Theorem clean_keeps_url_safe_characters s :
  Forall (fun c => kept env c = true) (clean env s)
  /\ (47%N ∉ clean env s) /\ (63%N ∉ clean env s)
  /\ (35%N ∉ clean env s)
  /\ (forall c, head (clean env s) = Some c -> isspace c = false)
  /\ (forall c, last (clean env s) = Some c -> isspace c = false).
Proof.
  pose proof (clean_kept s) as Hk.
  split; [exact Hk|]. rewrite Forall_forall in Hk.
  repeat split; try (intros Hin; apply Hk in Hin; vm_compute in Hin;
                     discriminate Hin).
  - apply strip_head.
  - apply strip_last.
Qed.

(** X11: cleaning twice is cleaning once. *)
Theorem clean_idempotent s : clean env (clean env s) = clean env s.
Proof.
  pose proof (clean_kept s) as Hk.
  unfold clean at 1.
  replace (List.filter (kept env) (clean env s)) with (clean env s).
  - unfold clean. apply strip_idempotent.
  - symmetry. induction (clean env s) as [|c l IH]; [done|].
    apply Forall_cons in Hk as [Hc Hl]. simpl. rewrite Hc. f_equal. auto.
Qed.

End MoreChain.

(** ** More on one audio file *)

(** The four ways through [process_audio_file]. *)
Ltac file_cases env self p w :=
  let txt := fresh "txt_path" in
  let Hs := fresh "Hs" in
  let Hx := fresh "Hx" in
  let Ha := fresh "Ha" in
  let Ht := fresh "Ht" in
  destruct (with_suffix p (str ".txt")) as [txt|?e] eqn:Hs;
  [destruct (fs w !! txt) as [?n|] eqn:Hx;
   [rewrite (process_audio_file_skip env self p txt w Hs)
      by (rewrite Hx; eauto)
   |destruct (present (fst (read_tags env p))) eqn:Ha;
    [destruct (present (snd (read_tags env p))) eqn:Ht;
     [rewrite (process_audio_file_tagged env self p txt w Hs Hx Ha Ht)
     |rewrite (process_audio_file_untagged env self p txt w Hs Hx)
        by auto]
    |rewrite (process_audio_file_untagged env self p txt w Hs Hx)
       by auto]]
  |rewrite (process_audio_file_no_name env self p _ w Hs)].

Section MoreOneFile.

Variable env : environment.

Implicit Types (self : AudioParser) (w : world).
Implicit Types (audio_path txt_path : path).

(** X12: for a path with a name (so not for the bare root, where
    [with_suffix] raises), [save_lyrics] comes back without an exception,
    logs nothing and touches no entry but the sidecar.  When it answers
    [True], the target was no directory, the write went through and the
    sidecar holds the text, whatever was there before: it has no check of
    its own for an existing file. *)
Theorem save_lyrics_touches_only_the_sidecar
  self audio_path txt_path lyrics w :
  with_suffix audio_path (str ".txt") = Ok txt_path ->
  exists saved w',
    save_lyrics env self audio_path lyrics w = (Ok saved, w')
    /\ log w' = log w
    /\ (forall q, q <> txt_path -> fs w' !! q = fs w !! q)
    /\ (saved = true ->
        fs w !! txt_path <> Some Dir
        /\ disk env txt_path lyrics = Written
        /\ fs w' !! txt_path = Some (File lyrics)).
Proof.
  intros Hs. unfold save_lyrics, try_except, bind, lift, open_write, ret.
  rewrite Hs. simpl.
  destruct (fs w !! txt_path) as [[content|]|] eqn:Hx;
    try destruct (disk env txt_path lyrics) eqn:Hd; simpl;
    eexists _, _; (split; [reflexivity|]); simpl;
    repeat split; try done;
    try (intros q Hq; by rewrite lookup_insert_ne);
    try apply lookup_insert_eq.
Qed.

(** X13: when [fetch_lyrics] finds nothing, the file counts as an error and
    as processed, nothing is written, and the sleep follows; the delay is
    not negative, so that the sleep returns. *)
Theorem no_lyrics_is_one_error self audio_path txt_path w w2 :
  (0 <= delay self)%Q ->
  with_suffix audio_path (str ".txt") = Ok txt_path ->
  fs w !! txt_path = None ->
  present (fst (read_tags env audio_path)) = true ->
  present (snd (read_tags env audio_path)) = true ->
  fetch_lyrics env (lyrics_fetcher self)
    (the_str (fst (read_tags env audio_path)))
    (the_str (snd (read_tags env audio_path)))
    (log_event (EvTags audio_path) w) = (Ok None, w2) ->
  exists self' w3,
    process_audio_file env self audio_path w = (Ok self', w3)
    /\ errors self' = errors self + 1
    /\ processed self' = processed self + 1
    /\ found self' = found self
    /\ fs w3 = fs w
    /\ log w3 = log w2 ++ [EvSleep (delay self)].
Proof.
  intros Hd Hs Hx Ha Ht Hf.
  rewrite (process_audio_file_tagged env self audio_path txt_path w)
    by done.
  pose proof (fetch_lyrics_fs env (lyrics_fetcher self)
                (the_str (fst (read_tags env audio_path)))
                (the_str (snd (read_tags env audio_path)))
                (log_event (EvTags audio_path) w)) as Hfs.
  rewrite Hf in *. simpl in Hfs.
  rewrite after_fetch_returns by done.
  eexists _, _. split; [reflexivity|].
  simpl. by rewrite Hfs.
Qed.

(** X14: a text of white space only counts as no lyrics, but stops the
    fallback: when LRCLIB returns one, no other source is asked, nothing is
    written, and the file is an error; the delay is not negative, so that
    the sleep returns. *)
Theorem blank_lyrics_are_an_error self audio_path txt_path w s :
  (0 <= delay self)%Q ->
  with_suffix audio_path (str ".txt") = Ok txt_path ->
  fs w !! txt_path = None ->
  present (fst (read_tags env audio_path)) = true ->
  present (snd (read_tags env audio_path)) = true ->
  fst (fetch_lyrics_lrclib env (lyrics_fetcher self)
         (the_str (fst (read_tags env audio_path)))
         (the_str (snd (read_tags env audio_path)))
         (log_event (EvTags audio_path) w)) = Ok (PStr s) ->
  s <> [] ->
  forallb isspace s = true ->
  process_audio_file env self audio_path w
  = (Ok (add_processed (add_errors self)),
     log_event (EvSleep (delay self))
       (log_event
          (EvGet (lrclib_request
                    (the_str (fst (read_tags env audio_path)))
                    (the_str (snd (read_tags env audio_path)))))
          (log_event (EvTags audio_path) w))).
Proof.
  intros Hd Hs Hx Ha Ht Hl Hne Hblank.
  rewrite (process_audio_file_tagged env self audio_path txt_path w)
    by done.
  unfold fetch_lyrics, return_stripped, bind, lift, ret.
  destruct (fetch_lyrics_lrclib_run env (lyrics_fetcher self)
              (the_str (fst (read_tags env audio_path)))
              (the_str (snd (read_tags env audio_path)))
              (log_event (EvTags audio_path) w)) as (v & E & _).
  rewrite E in Hl |- *. simpl in Hl. injection Hl as ->.
  rewrite truthy_PStr by done. simpl. rewrite strip_blank by done.
  by rewrite after_fetch_returns.
Qed.

(** What one file can do to an entry that is there: nothing. *)
Lemma process_audio_file_keeps_content self audio_path w q n :
  fs w !! q = Some n ->
  fs (snd (process_audio_file env self audio_path w)) !! q = Some n.
Proof.
  intros Hq. file_cases env self audio_path w; try done.
  pose proof (fetch_lyrics_fs env (lyrics_fetcher self)
                (the_str (fst (read_tags env audio_path)))
                (the_str (snd (read_tags env audio_path)))
                (log_event (EvTags audio_path) w)) as Hfs.
  destruct (fetch_lyrics _ _ _ _ _) as [[lyrics|e] w2]; simpl in Hfs;
    [|simpl; by rewrite Hfs].
  assert (q <> txt_path) by congruence.
  unfold after_fetch.
  destruct (present lyrics); [destruct (disk env txt_path _)|];
    rewrite finish_fs; simpl; rewrite ?Hfs, ?lookup_insert_ne; done.
Qed.

(** [found] grows only together with a new sidecar. *)
Lemma found_only_with_sidecar self audio_path self' w w' :
  process_audio_file env self audio_path w = (Ok self', w') ->
  found self' <> found self ->
  exists txt_path lyrics,
    with_suffix audio_path (str ".txt") = Ok txt_path
    /\ fs w !! txt_path = None
    /\ fs w' !! txt_path = Some (File lyrics)
    /\ lyrics <> []
    /\ found self' = found self + 1.
Proof.
  file_cases env self audio_path w; try (intros [= <- <-]; done);
    try done.
  destruct (fetch_lyrics _ _ _ _ _) as [[lyrics|e] w2]; [|done].
  unfold after_fetch. destruct lyrics as [[|c lyrics]|]; simpl;
    try (destruct (finish_cases (add_errors self) w2) as [-> | ->];
         intros [= <- <-]; done).
  destruct (disk env txt_path (c :: lyrics));
    match goal with
    | |- finish ?s ?v = _ -> _ =>
        destruct (finish_cases s v) as [-> | ->]
    end;
    intros [= <- <-]; try done.
  intros _. exists txt_path, (c :: lyrics). simpl.
  by rewrite lookup_insert_eq.
Qed.

(** X15: [found] grows only when the sidecar was not there before and is
    there afterwards with a text that is not empty; it then grows by one. *)
Theorem found_means_sidecar_written self audio_path self' w w' :
  process_audio_file env self audio_path w = (Ok self', w') ->
  found self' <> found self ->
  exists txt_path lyrics,
    with_suffix audio_path (str ".txt") = Ok txt_path
    /\ fs w !! txt_path = None
    /\ fs w' !! txt_path = Some (File lyrics)
    /\ lyrics <> []
    /\ found self' = found self + 1.
Proof. apply found_only_with_sidecar. Qed.

(** X16: two audio files with the same sidecar path (same directory and
    stem, different extension): once the first has got its lyrics, the
    second is skipped. *)
Theorem same_stem_second_file_is_skipped
  self first second self1 w w1 :
  process_audio_file env self first w = (Ok self1, w1) ->
  found self1 <> found self ->
  with_suffix second (str ".txt") = with_suffix first (str ".txt") ->
  process_audio_file env self1 second w1 = (Ok self1, w1).
Proof.
  intros Hp Hf Hsame.
  destruct (found_only_with_sidecar self first self1 w w1 Hp Hf)
    as (txt_path & lyrics & Hs & _ & Hx & _).
  apply (process_audio_file_skip env self1 second txt_path w1);
    [congruence|by rewrite Hx].
Qed.

End MoreOneFile.

(** ** More on a whole run *)

Section MoreRun.

Variable env : environment.

Implicit Types (self : AudioParser) (w : world).

Lemma for_each_keeps_content l : forall self w q n,
  fs w !! q = Some n ->
  fs (snd (for_each l (process_audio_file env) self w)) !! q = Some n.
Proof.
  induction l as [|p l IH]; intros self w q n Hq; [done|].
  simpl. unfold bind.
  pose proof (process_audio_file_keeps_content env self p w q n Hq) as Hk.
  destruct (process_audio_file env self p w) as [[self'|e] w']; [|done].
  by apply IH.
Qed.

(** The run stops where it starts when there is no directory or nothing to
    visit. *)
Lemma process_directory_nothing_to_do self w :
  fs w !! directory self = None
  \/ discovered (fs w) (directory self) = [] ->
  process_directory env self w = (Ok self, w).
Proof.
  intros [Hd|Hn].
  - unfold process_directory, bind, path_exists.
    rewrite bool_decide_eq_false_2; [done|]. rewrite Hd. by intros [? ?].
  - destruct (fs w !! directory self) eqn:Hd.
    + rewrite process_directory_run by (rewrite Hd; eauto). by rewrite Hn.
    + unfold process_directory, bind, path_exists.
      rewrite bool_decide_eq_false_2; [done|]. rewrite Hd. by intros [? ?].
Qed.

(** X17: a run never removes or changes an entry of the file system that was
    there when it started, also when it ends in an exception. *)
Theorem run_keeps_existing_entries self w q n :
  fs w !! q = Some n ->
  fs (snd (process_directory env self w)) !! q = Some n.
Proof.
  intros Hq. destruct (fs w !! directory self) eqn:Hd.
  - rewrite process_directory_run by (rewrite Hd; eauto).
    by apply for_each_keeps_content.
  - by rewrite process_directory_nothing_to_do by auto.
Qed.

(** X18: a directory that is not there, or one with no audio file below
    it, ends the run at once: no tag read, no request, no write, counters
    as they were. *)
Theorem run_without_files_does_nothing self w :
  fs w !! directory self = None
  \/ discovered (fs w) (directory self) = [] ->
  process_directory env self w = (Ok self, w).
Proof. apply process_directory_nothing_to_do. Qed.

(** What one file does to the counters and to the log. *)
Lemma process_audio_file_accounts self p self' w w' :
  process_audio_file env self p w = (Ok self', w') ->
  directory self' = directory self
  /\ delay self' = delay self
  /\ lyrics_fetcher self' = lyrics_fetcher self
  /\ 0 <= found self' - found self
  /\ 0 <= errors self' - errors self
  /\ found self' - found self + (errors self' - errors self) <= 1
  /\ found self' - found self <= processed self' - processed self <= 1
  /\ count is_sleep (log w') - count is_sleep (log w)
     = processed self' - processed self
  /\ processed self' - processed self
     <= count is_request (log w') - count is_request (log w)
     <= 3 * (processed self' - processed self).
Proof.
  unfold count.
  file_cases env self p w;
    try (intros [= <- <-]; simpl;
         rewrite ?List.filter_app, ?length_app; simpl;
         repeat split; (done || lia));
    try done.
  destruct (fetch_lyrics_log env (lyrics_fetcher self)
              (the_str (fst (read_tags env p)))
              (the_str (snd (read_tags env p)))
              (log_event (EvTags p) w)) as (sent & E & Hsent).
  destruct (fetch_lyrics _ _ _ _ _) as [[lyrics|e] w2]; [|done].
  simpl in E. unfold after_fetch.
  destruct (present lyrics); [destruct (disk env txt_path _)|];
    match goal with
    | |- finish ?s ?v = _ -> _ =>
        destruct (finish_cases s v) as [-> | ->]
    end;
    intros [= <- <-]; simpl; rewrite E, !List.filter_app, !length_app;
    destruct Hsent as [->|[->| ->]]; simpl; repeat split; (done || lia).
Qed.

Lemma for_each_accounts l : forall self self' w w',
  for_each l (process_audio_file env) self w = (Ok self', w') ->
  directory self' = directory self
  /\ delay self' = delay self
  /\ lyrics_fetcher self' = lyrics_fetcher self
  /\ 0 <= found self' - found self
  /\ 0 <= errors self' - errors self
  /\ found self' - found self + (errors self' - errors self)
     <= Z.of_nat (length l)
  /\ found self' - found self <= processed self' - processed self
     <= Z.of_nat (length l)
  /\ count is_sleep (log w') - count is_sleep (log w)
     = processed self' - processed self
  /\ processed self' - processed self
     <= count is_request (log w') - count is_request (log w)
     <= 3 * (processed self' - processed self).
Proof.
  induction l as [|p l IH]; intros self self' w w'.
  - intros [= <- <-]. simpl. repeat split; (done || lia).
  - simpl. unfold bind.
    destruct (process_audio_file env self p w) as [[self1|e] w1] eqn:E1;
      [|done].
    intros E2. apply process_audio_file_accounts in E1.
    apply IH in E2.
    destruct E1 as (Hd1 & Hy1 & Hf1 & E1), E2 as (Hd2 & Hy2 & Hf2 & E2).
    repeat split; try congruence; lia.
Qed.

(** X19: the summary of a run that starts with fresh counters: [found] and
    [errors] together do not exceed the number of files visited, and
    [found] does not exceed [processed], which does not exceed that number
    either. *)
Theorem run_counters_are_bounded root d self' w w' :
  process_directory env (AudioParser_init root d) w = (Ok self', w') ->
  0 <= found self' <= processed self'
  /\ 0 <= errors self'
  /\ processed self' <= Z.of_nat (length (discovered (fs w) root))
  /\ found self' + errors self'
     <= Z.of_nat (length (discovered (fs w) root)).
Proof.
  intros Hrun. destruct (fs w !! root) eqn:Hd.
  - rewrite process_directory_run in Hrun by (simpl; rewrite Hd; eauto).
    apply for_each_accounts in Hrun. simpl in Hrun. lia.
  - rewrite process_directory_nothing_to_do in Hrun by (left; exact Hd).
    injection Hrun as <- <-. simpl. lia.
Qed.

(** X20: a run sleeps once for every file it counts as processed, and
    sends between one and three requests for each of them. *)
Theorem run_sleeps_once_per_processed_file self self' w w' :
  process_directory env self w = (Ok self', w') ->
  count is_sleep (log w') - count is_sleep (log w)
  = processed self' - processed self
  /\ processed self' - processed self
     <= count is_request (log w') - count is_request (log w)
     <= 3 * (processed self' - processed self).
Proof.
  intros Hrun. destruct (fs w !! directory self) eqn:Hd.
  - rewrite process_directory_run in Hrun by (rewrite Hd; eauto).
    apply for_each_accounts in Hrun. tauto.
  - rewrite process_directory_nothing_to_do in Hrun by (left; exact Hd).
    injection Hrun as <- <-. lia.
Qed.

End MoreRun.

(** ** More on the scan *)

#[global] Instance path_le_transitive : Transitive path_le.
Proof.
  intros p q r [->|Hpq] [->|Hqr]; unfold path_le; auto.
  right. unfold path_lt in *. by etrans.
Qed.

#[global] Instance path_le_antisymm : AntiSymm (=) path_le.
Proof.
  intros p q [->|Hpq] [Heq|Hqp]; auto.
  unfold path_lt in *. destruct (irreflexivity (@lexico (list (list N)) _) p).
  by etrans.
Qed.

Lemma strictly_sorted (l : list path) :
  Sorted path_le l -> NoDup l -> StronglySorted path_lt l.
Proof.
  intros Hs Hn. apply Sorted_StronglySorted in Hs; [|apply _].
  induction l as [|p l IH]; [constructor|].
  apply StronglySorted_cons in Hs as [Hall Hs].
  apply NoDup_cons in Hn as [Hp Hn].
  constructor; [by apply IH|].
  rewrite Forall_forall in Hall |- *. intros q Hq.
  destruct (Hall q Hq) as [->|?]; [done|done].
Qed.

(** X21: the files of a run come in strictly ascending path order, so each
    is visited once and the order does not depend on how the directory
    happens to be listed. *)
Theorem files_are_visited_in_path_order m root :
  StronglySorted path_lt (discovered m root).
Proof.
  apply strictly_sorted; [apply discovered_sorted|apply discovered_NoDup].
Qed.

(** The eight extensions behind the eight patterns. *)
Lemma patterns_are_extensions name :
  (exists pattern, pattern ∈ patterns /\ fnmatch pattern name = true)
  <-> exists ext,
        ext ∈ [str ".flac"; str ".FLAC"; str ".mp3"; str ".MP3";
               str ".m4a"; str ".M4A"; str ".mp4"; str ".MP4"]
        /\ ext `suffix_of` name.
Proof.
  split.
  - intros (pattern & Hin & Hm).
    destruct (patterns_match_suffixes pattern Hin) as (ext & -> & Hext).
    exists ext. split; [|by apply Hext].
    unfold patterns in Hin.
    repeat (apply elem_of_cons in Hin as [Hin|Hin];
            [injection Hin as ->; vm_compute;
             repeat (first [left; reflexivity | right]); fail|]).
    by apply elem_of_nil in Hin.
  - intros (ext & Hin & Hs). exists (42%N :: ext).
    assert (42%N :: ext ∈ patterns) as Hp.
    { repeat (apply elem_of_cons in Hin as [->|Hin];
              [vm_compute; repeat (first [left; reflexivity | right]);
               fail|]).
      by apply elem_of_nil in Hin. }
    split; [exact Hp|].
    destruct (patterns_match_suffixes _ Hp) as (ext' & [= <-] & Hext).
    by apply Hext.
Qed.

(** A loop ends at the first element whose processing raises. *)
Lemma for_each_raises {A S} (body : S -> A -> M S) (visited : list A) :
  forall x rest s s1 w w1 w2 e,
    for_each visited body s w = (Ok s1, w1) ->
    body s1 x w1 = (Raise e, w2) ->
    for_each (visited ++ x :: rest) body s w = (Raise e, w2).
Proof.
  induction visited as [|y visited IH]; intros x rest s s1 w w1 w2 e.
  - intros [= <- <-] Hx. simpl. unfold bind. by rewrite Hx.
  - simpl. unfold bind. destruct (body s y w) as [[s'|e'] w']; [|done].
    apply IH.
Qed.

(** X22: when the root is there, a run is the loop of [process_audio_file]
    over the files of the scan, which are exactly the entries below the
    root, through directories all the way, whose name ends in [.flac],
    [.mp3], [.m4a] or [.mp4] written all in lower case or all in upper
    case.  Each of them is visited in turn until one raises: the run then
    ends with that exception and the files after it are not visited. *)
Theorem visited_files_by_extension env self w :
  is_Some (fs w !! directory self) ->
  process_directory env self w
  = for_each (discovered (fs w) (directory self)) (process_audio_file env)
      self w
  /\ (forall p,
        p ∈ discovered (fs w) (directory self)
        <-> is_Some (fs w !! p) /\ below (fs w) (directory self) p = true
            /\ exists ext,
                 ext ∈ [str ".flac"; str ".FLAC"; str ".mp3"; str ".MP3";
                        str ".m4a"; str ".M4A"; str ".mp4"; str ".MP4"]
                 /\ ext `suffix_of` name_of p)
  /\ (forall visited p rest self1 w1 e w2,
        discovered (fs w) (directory self) = visited ++ p :: rest ->
        for_each visited (process_audio_file env) self w = (Ok self1, w1) ->
        process_audio_file env self1 p w1 = (Raise e, w2) ->
        process_directory env self w = (Raise e, w2)).
Proof.
  intros Hd. rewrite process_directory_run by done.
  split; [done|]. split.
  - intros p. by rewrite elem_of_discovered, patterns_are_extensions.
  - intros visited p rest self1 w1 e w2 -> Hv Hp.
    by apply (for_each_raises _ visited p rest self self1 w w1 w2 e).
Qed.

Section ScanAfterRun.

Variable env : environment.

Implicit Types (self : AudioParser) (w : world) (m : gmap path node).

Lemma only_sidecars_added_refl m : only_sidecars_added m m.
Proof. intros q. by left. Qed.

Lemma only_sidecars_added_trans m1 m2 m3 :
  only_sidecars_added m1 m2 -> only_sidecars_added m2 m3 ->
  only_sidecars_added m1 m3.
Proof.
  intros H12 H23 q.
  destruct (H12 q) as [E12|(Hn & (t & Ht) & Hs)],
    (H23 q) as [E23|(Hn' & (t' & Ht') & Hs')].
  - left. congruence.
  - right. rewrite <- E12. eauto.
  - right. rewrite E23. eauto.
  - congruence.
Qed.

Lemma with_suffix_name (p q : path) (suf : pystr) :
  46%N ∈ suf -> with_suffix p suf = Ok q -> suf `suffix_of` name_of q.
Proof.
  intros Hdot. unfold with_suffix.
  destruct (name_of p) as [|c name]; [done|].
  intros [= <-]. rewrite name_of_final.
  - destruct (suffix (c :: name)) as [|x old];
      [by exists (c :: name)
      |by exists (take (length (c :: name) - length (x :: old))
                    (c :: name))].
  - apply (not_anchor _ 46%N); [|done].
    destruct (suffix (c :: name)); set_solver.
Qed.

Lemma process_audio_file_adds self p w :
  only_sidecars_added (fs w) (fs (snd (process_audio_file env self p w))).
Proof.
  file_cases env self p w; try apply only_sidecars_added_refl.
  pose proof (fetch_lyrics_fs env (lyrics_fetcher self)
                (the_str (fst (read_tags env p)))
                (the_str (snd (read_tags env p)))
                (log_event (EvTags p) w)) as Hfs.
  destruct (fetch_lyrics _ _ _ _ _) as [[lyrics|e] w2]; simpl in Hfs;
    [|simpl; rewrite Hfs; apply only_sidecars_added_refl].
  assert (forall text,
            only_sidecars_added (fs w) (<[txt_path := File text]> (fs w)))
    as Hadd.
  { intros text q. destruct (decide (q = txt_path)) as [->|Hq].
    - right. rewrite lookup_insert_eq. repeat split; eauto.
      apply (with_suffix_name p); [|done]. vm_compute. set_solver.
    - left. by rewrite lookup_insert_ne. }
  unfold after_fetch.
  destruct (present lyrics); [destruct (disk env txt_path _)|];
    rewrite finish_fs; simpl; rewrite Hfs;
    auto using only_sidecars_added_refl.
Qed.

Lemma for_each_adds l : forall self w,
  only_sidecars_added (fs w)
    (fs (snd (for_each l (process_audio_file env) self w))).
Proof.
  induction l as [|p l IH]; intros self w;
    [apply only_sidecars_added_refl|].
  simpl. unfold bind.
  pose proof (process_audio_file_adds self p w) as Hp.
  destruct (process_audio_file env self p w) as [[self'|e] w']; [|done].
  eapply only_sidecars_added_trans; [exact Hp|apply IH].
Qed.

Lemma process_directory_adds self w :
  only_sidecars_added (fs w) (fs (snd (process_directory env self w))).
Proof.
  destruct (fs w !! directory self) eqn:Hd.
  - rewrite process_directory_run by (rewrite Hd; eauto). apply for_each_adds.
  - rewrite process_directory_nothing_to_do by auto.
    apply only_sidecars_added_refl.
Qed.

Lemma is_dir_added m m' q :
  only_sidecars_added m m' -> is_dir m' q = is_dir m q.
Proof.
  intros H. unfold is_dir.
  destruct (H q) as [->|(-> & (t & ->) & _)]; done.
Qed.

Lemma below_added m m' root p :
  only_sidecars_added m m' -> below m' root p = below m root p.
Proof.
  intros H. unfold below. destruct (strip_prefix root p) as [[|c rest]|];
    try done.
  generalize (c :: rest) as l. intros l. revert root.
  induction l as [|x l IH]; intros root; [done|].
  simpl. by rewrite (is_dir_added m m'), IH.
Qed.

Lemma suffix_last (ext name : pystr) :
  ext <> [] -> ext `suffix_of` name -> last name = last ext.
Proof.
  intros Hne [k ->]. destruct ext as [|c ext] using rev_ind; [done|].
  by rewrite app_assoc, !last_snoc.
Qed.

Lemma sidecar_is_no_audio_file (name : pystr) :
  str ".txt" `suffix_of` name ->
  ~ exists ext,
      ext ∈ [str ".flac"; str ".FLAC"; str ".mp3"; str ".MP3";
             str ".m4a"; str ".M4A"; str ".mp4"; str ".MP4"]
      /\ ext `suffix_of` name.
Proof.
  intros Htxt (ext & Hin & Hext).
  apply suffix_last in Htxt; [|done].
  repeat (apply elem_of_cons in Hin as [->|Hin];
          [apply suffix_last in Hext; [|done];
           rewrite Htxt in Hext; vm_compute in Hext; discriminate Hext|]).
  by apply elem_of_nil in Hin.
Qed.

Lemma discovered_added m m' root :
  only_sidecars_added m m' -> discovered m' root = discovered m root.
Proof.
  intros H.
  apply (Sorted_unique path_le); try apply discovered_sorted.
  apply NoDup_Permutation; try apply discovered_NoDup.
  intros p.
  rewrite !elem_of_discovered, !patterns_are_extensions,
    (below_added m m') by done.
  split; intros (Hp & Hb & Hext); (split; [|done]).
  - destruct (H p) as [<-|(_ & _ & Htxt)]; [done|].
    by destruct (sidecar_is_no_audio_file _ Htxt).
  - destruct (H p) as [->|(Hn & _)]; [done|].
    rewrite Hn in Hp. by destruct Hp.
Qed.

(** X23: what a run writes are sidecars, and a sidecar is no audio file: a
    scan after the run finds the same files, in the same order, as the scan
    the run started with. *)
Theorem scan_is_unchanged_by_a_run self w root :
  discovered (fs (snd (process_directory env self w))) root
  = discovered (fs w) root.
Proof. apply discovered_added, process_directory_adds. Qed.

End ScanAfterRun.

(** ** Running the batch twice *)

Section Rerun.

Variable env : environment.

Implicit Types (self : AudioParser) (w : world).

(** A sidecar that is there stays there through a loop. *)
Lemma for_each_keeps_sidecar l self w p :
  has_sidecar (fs w) p = true ->
  has_sidecar (fs (snd (for_each l (process_audio_file env) self w))) p
  = true.
Proof.
  unfold has_sidecar. destruct (with_suffix p (str ".txt")); [|done].
  rewrite !bool_decide_eq_true. apply for_each_keeps.
Qed.

(** A file that comes out of its processing without sidecar has been
    counted: as an error, or as processed and not found. *)
Lemma process_audio_file_marks self p self' w w' :
  process_audio_file env self p w = (Ok self', w') ->
  has_sidecar (fs w') p = false ->
  1 <= errors self' - errors self
       + (processed self' - processed self - (found self' - found self)).
Proof.
  unfold has_sidecar.
  file_cases env self p w; try done.
  - intros [= <- <-]. by rewrite Hx.
  - destruct (fetch_lyrics _ _ _ _ _) as [[lyrics|e] w2]; [|done].
    unfold after_fetch.
    destruct (present lyrics); [destruct (disk env txt_path _)|];
      match goal with
      | |- finish ?s ?v = _ -> _ =>
          destruct (finish_cases s v) as [-> | ->]
      end;
      intros [= <- <-]; simpl; try lia.
    by rewrite lookup_insert_eq.
  - intros [= <- <-] _. simpl. lia.
  - intros [= <- <-] _. simpl. lia.
Qed.

(** The files a loop leaves without sidecar are at most as many as its
    errors and its processed files without lyrics found. *)
Lemma for_each_marks l : forall self self' w w',
  for_each l (process_audio_file env) self w = (Ok self', w') ->
  Z.of_nat (length (List.filter (fun p => negb (has_sidecar (fs w') p)) l))
  <= errors self' - errors self
     + (processed self' - processed self - (found self' - found self)).
Proof.
  induction l as [|p l IH]; intros self self' w w'.
  - intros [= <- <-]. simpl. lia.
  - simpl. unfold bind.
    destruct (process_audio_file env self p w) as [[self1|e] w1] eqn:E1;
      [|done].
    intros E2.
    pose proof (process_audio_file_accounts env self p self1 w w1 E1)
      as (_ & _ & _ & _ & He & _ & Hf & _).
    pose proof (IH _ _ _ _ E2) as Hl.
    destruct (has_sidecar (fs w') p) eqn:Hp; simpl; [lia|].
    assert (has_sidecar (fs w1) p = false) as Hp1.
    { destruct (has_sidecar (fs w1) p) eqn:Hp1; [|done].
      pose proof (for_each_keeps_sidecar l self1 w1 p Hp1) as Hk.
      rewrite E2 in Hk. simpl in Hk. congruence. }
    pose proof (process_audio_file_marks self p self1 w w1 E1 Hp1).
    lia.
Qed.

(** C9, as amended: a first run that returns, and a second run on what it
    left.  Every sidecar is still there; the second run is the processing
    of those files of the first run that are still without sidecar, the
    others taking the skip path; these files are at most as many as the
    errors the first run counted plus the files it processed without
    counting them as found.  So when the first run counted no error and
    every file it processed as found, the second run skips every file: it
    changes nothing and its counters are those it started with. *)
Theorem rerun_skips_files_with_sidecar self self2 w0 self1 w :
  process_directory env self w0 = (Ok self1, w) ->
  is_Some (fs w0 !! directory self) ->
  directory self2 = directory self ->
  (forall p, has_sidecar (fs w0) p = true -> has_sidecar (fs w) p = true)
  /\ process_directory env self2 w
     = for_each
         (List.filter (fun p => negb (has_sidecar (fs w) p))
            (discovered (fs w0) (directory self)))
         (process_audio_file env) self2 w
  /\ Z.of_nat
       (length (List.filter (fun p => negb (has_sidecar (fs w) p))
                  (discovered (fs w0) (directory self))))
     <= errors self1 - errors self
        + (processed self1 - processed self - (found self1 - found self))
  /\ (errors self1 = errors self ->
      processed self1 - processed self = found self1 - found self ->
      process_directory env self2 w = (Ok self2, w)).
Proof.
  intros Hrun Hdir Hsame.
  pose proof (process_directory_adds env self w0) as Hadd.
  rewrite Hrun in Hadd. simpl in Hadd.
  rewrite process_directory_run in Hrun by done.
  assert (forall q, is_Some (fs w0 !! q) -> is_Some (fs w !! q)) as Hkeep.
  { intros q Hq.
    pose proof (for_each_keeps env (discovered (fs w0) (directory self))
                  self w0 q Hq) as Hk.
    by rewrite Hrun in Hk. }
  assert (process_directory env self2 w
          = for_each
              (List.filter (fun p => negb (has_sidecar (fs w) p))
                 (discovered (fs w0) (directory self)))
              (process_audio_file env) self2 w) as Hsecond.
  { rewrite process_directory_run by (rewrite Hsame; auto).
    rewrite Hsame, (discovered_added (fs w0) (fs w)) by done.
    by apply for_each_skips_existing. }
  pose proof (for_each_marks _ _ _ _ _ Hrun) as Hmarks.
  repeat split; try done.
  - intros p. unfold has_sidecar.
    destruct (with_suffix p (str ".txt")); [|done].
    rewrite !bool_decide_eq_true. apply Hkeep.
  - intros He Hp. rewrite Hsecond.
    destruct (List.filter _ _) as [|p pending]; [done|].
    simpl in Hmarks. lia.
Qed.

End Rerun.

(** C9 on the end-to-end scenario: the first run writes [song.txt] and
    counts one file found, none as an error; the second leaves everything
    as it is. *)
Lemma rerun_skips_files_with_sidecar_witness :
  process_directory Scenario.lrclib_la Scenario.parser Scenario.one_song
  = (Ok (add_processed (add_found Scenario.parser)),
     snd (process_directory Scenario.lrclib_la Scenario.parser
            Scenario.one_song))
  /\ process_directory Scenario.lrclib_la Scenario.parser
       (snd (process_directory Scenario.lrclib_la Scenario.parser
               Scenario.one_song))
     = (Ok Scenario.parser,
        snd (process_directory Scenario.lrclib_la Scenario.parser
               Scenario.one_song)).
Proof.
  assert (process_directory Scenario.lrclib_la Scenario.parser
            Scenario.one_song
          = (Ok (add_processed (add_found Scenario.parser)),
             snd (process_directory Scenario.lrclib_la Scenario.parser
                    Scenario.one_song))) as Hrun
    by (vm_compute; reflexivity).
  split; [exact Hrun|].
  apply (rerun_skips_files_with_sidecar Scenario.lrclib_la
           Scenario.parser Scenario.parser Scenario.one_song
           (add_processed (add_found Scenario.parser))
           (snd (process_directory Scenario.lrclib_la Scenario.parser
                   Scenario.one_song)) Hrun);
    first [vm_compute; reflexivity | vm_compute; eexists; reflexivity].
Defined.

(** C9 as the claim words it: a file without tags gets no sidecar, so the
    second run reads its tags again and counts the same errors again
    instead of skipping. *)
Lemma second_run_all_skip_counterexample :
  process_directory Scenario.no_tags Scenario.parser Scenario.two_untagged
  = (Ok (add_errors (add_errors Scenario.parser)),
     log_event (EvTags Scenario.untagged_mp3)
       (log_event (EvTags Scenario.other_mp3) Scenario.two_untagged))
  /\ process_directory Scenario.no_tags Scenario.parser
       (snd (process_directory Scenario.no_tags Scenario.parser
               Scenario.two_untagged))
     = (Ok (add_errors (add_errors Scenario.parser)),
        log_event (EvTags Scenario.untagged_mp3)
          (log_event (EvTags Scenario.other_mp3)
             (snd (process_directory Scenario.no_tags Scenario.parser
                     Scenario.two_untagged))))
  /\ errors (add_errors (add_errors Scenario.parser)) = 2.
Proof. repeat split; vm_compute; reflexivity. Qed.

(** ** Reading the tags *)

Section ReadingTags.

Import Tags.

Variable lib : library.

Implicit Types (p parent : path) (d : gmap pystr (list pystr)).

(** The extension of [parent/stem.ext], lower-cased, when [ext] is plain
    ASCII. *)
Lemma lower_suffix parent (stem ext : pystr) :
  stem <> [] -> ext <> [] -> 46%N ∉ ext ->
  forallb (fun c => c <? 128)%N ext = true ->
  lower lib (suffix (name_of (parent ++ [stem ++ str "." ++ ext])))
  = str "." ++ map ascii_lower ext.
Proof.
  intros Hstem Hext Hdot Hascii.
  change (stem ++ str "." ++ ext) with (stem ++ 46%N :: ext).
  rewrite name_of_final by (apply (not_anchor _ 46%N); [set_solver|done]).
  rewrite suffix_of_name by done. unfold lower.
  change (forallb (fun c => c <? 128)%N (46%N :: ext))
    with (forallb (fun c => c <? 128)%N ext).
  by rewrite Hascii.
Qed.

Lemma body_flac p :
  lower lib (suffix (name_of p)) = str ".flac" ->
  extract_metadata_body lib p
  = rbind (load (FLAC lib p)) (fun audio =>
    rbind (file_get_first audio (str "artist")) (fun a =>
    rbind (if present a then Ok a
           else file_get_first audio (str "ARTIST")) (fun artist =>
    rbind (file_get_first audio (str "title")) (fun t =>
    rbind (if present t then Ok t
           else file_get_first audio (str "TITLE")) (fun title =>
    Ok (artist, title)))))).
Proof. intros H. unfold extract_metadata_body. by rewrite H. Qed.

Lemma body_mp3 p :
  lower lib (suffix (name_of p)) = str ".mp3" ->
  extract_metadata_body lib p
  = rbind (load (MP3 lib p)) (fun audio =>
    if has_tags audio then
      rbind (frame_text (default ∅ audio) (str "TPE1")) (fun artist =>
      rbind (frame_text (default ∅ audio) (str "TIT2")) (fun title =>
      Ok (artist, title)))
    else Ok (None, None)).
Proof. intros H. unfold extract_metadata_body. by rewrite H. Qed.

Lemma no_tags_when_unreadable_or_foreign p :
  ((exists e, FLAC lib p = Unreadable e)
   /\ (exists e, MP3 lib p = Unreadable e)
   /\ (exists e, MP4 lib p = Unreadable e)
   \/ lower lib (suffix (name_of p))
      ∉ [str ".flac"; str ".mp3"; str ".m4a"; str ".mp4"]) ->
  extract_metadata lib p = (None, None).
Proof.
  unfold extract_metadata, extract_metadata_body.
  intros [((e1 & ->) & (e2 & ->) & (e3 & ->))|Hother].
  - repeat case_decide; done.
  - repeat case_decide; try done; destruct Hother;
      repeat match goal with
             | H : _ \/ _ |- _ => destruct H
             | H : lower _ _ = _ |- _ => rewrite H
             end;
      set_solver.
Qed.

(** X24: a file the tag library cannot open, whatever the exception, and a
    file whose extension is none of the four, yield neither artist nor
    title; the call itself never raises. *)
Theorem unreadable_or_foreign_file_has_no_tags p :
  ((exists e, FLAC lib p = Unreadable e)
   /\ (exists e, MP3 lib p = Unreadable e)
   /\ (exists e, MP4 lib p = Unreadable e)
   \/ lower lib (suffix (name_of p))
      ∉ [str ".flac"; str ".mp3"; str ".m4a"; str ".mp4"]) ->
  extract_metadata lib p = (None, None).
Proof. apply no_tags_when_unreadable_or_foreign. Qed.

(** X25: in a FLAC file, whatever the case of the extension, the values
    stored under [artist] and [title] are the yield whenever they are
    there and not empty; what is stored under [ARTIST] and [TITLE] does
    not matter then. *)
Theorem flac_lower_case_keys_come_first
  parent (stem ext : pystr) d a more_a t more_t :
  stem <> [] -> ext <> [] -> 46%N ∉ ext ->
  forallb (fun c => c <? 128)%N ext = true ->
  map ascii_lower ext = str "flac" ->
  FLAC lib (parent ++ [stem ++ str "." ++ ext]) = Loaded (Some d) ->
  d !! str "artist" = Some (a :: more_a) -> a <> [] ->
  d !! str "title" = Some (t :: more_t) -> t <> [] ->
  extract_metadata lib (parent ++ [stem ++ str "." ++ ext])
  = (Some a, Some t).
Proof.
  intros Hstem Hext Hdot Hascii Hlow Hload Ha Hane Ht Htne.
  unfold extract_metadata. rewrite body_flac
    by (rewrite lower_suffix by done; by rewrite Hlow).
  rewrite Hload. simpl. unfold get_first. unfold pystr in *.
  rewrite Ha, Ht. simpl.
  destruct a; [done|]. destruct t; [done|]. done.
Qed.

(** X26: in a FLAC file without an [artist] key, or with an empty string
    under it, the first value under [ARTIST] is the artist. *)
Theorem flac_upper_case_key_is_the_fallback p d a more_a t more_t :
  lower lib (suffix (name_of p)) = str ".flac" ->
  FLAC lib p = Loaded (Some d) ->
  d !! str "artist" = None \/ (exists l, d !! str "artist" = Some ([] :: l)) ->
  d !! str "ARTIST" = Some (a :: more_a) ->
  d !! str "title" = Some (t :: more_t) -> t <> [] ->
  extract_metadata lib p = (Some a, Some t).
Proof.
  intros Hsuf Hload Hlow Hup Ht Htne.
  unfold extract_metadata. rewrite body_flac by done.
  rewrite Hload. simpl. unfold get_first. unfold pystr in *.
  destruct Hlow as [->|(l & ->)]; simpl; rewrite Hup, Ht; simpl;
    by destruct t.
Qed.

(** X28: an MP3 file without ID3 frames yields nothing; with frames, the
    artist is the first text of [TPE1] and the title the first text of
    [TIT2], each [None] when its frame is missing. *)
Theorem mp3_reads_tpe1_and_tit2 p tags :
  lower lib (suffix (name_of p)) = str ".mp3" ->
  MP3 lib p = Loaded tags ->
  (has_tags tags = false -> extract_metadata lib p = (None, None))
  /\ (forall d, tags = Some d -> d <> ∅ ->
      (forall a more_a t more_t,
         d !! str "TPE1" = Some (a :: more_a) ->
         d !! str "TIT2" = Some (t :: more_t) ->
         extract_metadata lib p = (Some a, Some t))
      /\ (forall t more_t,
            d !! str "TPE1" = None ->
            d !! str "TIT2" = Some (t :: more_t) ->
            extract_metadata lib p = (None, Some t))
      /\ (forall a more_a,
            d !! str "TPE1" = Some (a :: more_a) ->
            d !! str "TIT2" = None ->
            extract_metadata lib p = (Some a, None))).
Proof.
  intros Hsuf Hload. unfold extract_metadata. rewrite body_mp3 by done.
  rewrite Hload. simpl. split.
  - by intros ->.
  - intros d -> Hd. simpl. rewrite bool_decide_eq_false_2 by done. simpl.
    unfold frame_text. unfold pystr in *.
    repeat split; intros;
      repeat match goal with H : d !! _ = _ |- _ => rewrite H; clear H end;
      simpl; rewrite ?bool_decide_eq_true_2 by eauto;
      rewrite ?bool_decide_eq_false_2 by (by intros [? ?]); done.
Qed.

End ReadingTags.

Section TagsInARun.

Variable env : environment.
Variable lib : Tags.library.

(** X29: with [extract_metadata] as the tag reader, a file the library
    cannot open is counted as one error, without a request and without a
    sleep. *)
Theorem unreadable_file_is_one_error self audio_path txt_path w :
  with_suffix audio_path (str ".txt") = Ok txt_path ->
  fs w !! txt_path = None ->
  (exists e, Tags.FLAC lib audio_path = Tags.Unreadable e) ->
  (exists e, Tags.MP3 lib audio_path = Tags.Unreadable e) ->
  (exists e, Tags.MP4 lib audio_path = Tags.Unreadable e) ->
  process_audio_file (Tags.reading lib env) self audio_path w
  = (Ok (add_errors self), log_event (EvTags audio_path) w).
Proof.
  intros Hs Hx H1 H2 H3.
  apply (process_audio_file_untagged (Tags.reading lib env) self audio_path
           txt_path w Hs Hx).
  left. simpl.
  by rewrite (no_tags_when_unreadable_or_foreign lib audio_path)
    by (left; auto).
Qed.

End TagsInARun.

(** ** The entry point *)

(** X30: without a directory argument [main] exits with status 1 and
    touches nothing; with one it never exits on its own account and looks
    at the first argument only.  When the directory cannot be resolved, the
    exception of [resolve] ends [main] with the world untouched; when it
    resolves to a place that is not there, [main] returns with all counters
    at zero and the world untouched. *)
Theorem main_runs_on_its_first_argument env resolve argv w :
  ((length argv < 2)%nat -> main env resolve argv w = (Exit 1, w))
  /\ (forall prog directory more,
        argv = prog :: directory :: more ->
        main env resolve argv w = main env resolve [prog; directory] w
        /\ (forall code, fst (main env resolve argv w) <> Exit code)
        /\ (forall e,
              resolve directory = Raise e ->
              main env resolve argv w = (Uncaught e, w))
        /\ (forall root,
              resolve directory = Ok root ->
              fs w !! root = None ->
              main env resolve argv w
              = (Returned (AudioParser_init root (2 # 1)), w))).
Proof.
  split.
  - intros H. unfold main. by rewrite (proj2 (Nat.ltb_lt _ _) H).
  - intros prog directory more ->. unfold main. simpl.
    repeat split.
    + intros code. destruct (resolve directory); [|done].
      by destruct (process_directory _ _ _) as [[?|?] ?].
    + by intros e ->.
    + intros root -> Hd.
      by rewrite process_directory_nothing_to_do by (left; exact Hd).
Qed.

(** ** The further properties on concrete runs *)

(** An artist that cannot be quoted: the aggregator route answers [None]
    and no request goes out; a name that can be quoted gets its request. *)
Lemma fetch_lyrics_api_unquotable :
  fetch_lyrics_api Cases.strict LyricsFetcher_init [55296%N] (str "B")
    Scenario.one_song
  = (Ok PNone, Scenario.one_song)
  /\ log (snd (fetch_lyrics_api Cases.strict LyricsFetcher_init (str "A")
                 (str "B") Scenario.one_song))
     = [EvGet (api_request (str "A") (str "B"))].
Proof. split; vm_compute; reflexivity. Qed.

(** X2 where every service answers 404. *)
Lemma unanswered_request_gives_none_witness :
  fst (fetch_lyrics_lrclib Scenario.silent LyricsFetcher_init
         (str "A") (str "B") Scenario.one_song) = Ok PNone
  /\ fst (fetch_lyrics_chartlyrics Scenario.silent LyricsFetcher_init
            (str "A") (str "B") Scenario.one_song) = Ok PNone
  /\ fst (fetch_lyrics_ovh Scenario.silent LyricsFetcher_init
            (str "A") (str "B") Scenario.one_song) = Ok PNone
  /\ fst (fetch_lyrics_api Scenario.silent LyricsFetcher_init
            (str "A") (str "B") Scenario.one_song) = Ok PNone.
Proof.
  apply (unanswered_request_gives_none Scenario.silent LyricsFetcher_init
           (str "A") (str "B") Scenario.one_song).
  intros r. simpl. discriminate.
Defined.

(** X3 on two candidates: the synced lyrics of the first win over the plain
    lyrics of the second. *)
Lemma lrclib_reads_first_candidate_witness :
  fst (fetch_lyrics_lrclib Cases.two_candidates LyricsFetcher_init
         (str "A") (str "B") Scenario.one_song)
  = Ok (PStr (str "[00:01] La")).
Proof.
  rewrite (lrclib_reads_first_candidate Cases.two_candidates
             LyricsFetcher_init (str "A") (str "B") Scenario.one_song
             Cases.two_candidates_reply
             {[ str "syncedLyrics" := PStr (str "[00:01] La") ]}
             [PDict {[ str "plainLyrics" := PStr (str "Other") ]}]
             eq_refl eq_refl eq_refl).
  vm_compute. reflexivity.
Defined.

(** X4 where every service answers with an empty list. *)
Lemma empty_payload_gives_none_witness :
  fst (fetch_lyrics_lrclib Cases.empty_everywhere LyricsFetcher_init
         (str "A") (str "B") Scenario.one_song) = Ok PNone
  /\ fst (fetch_lyrics_ovh Cases.empty_everywhere LyricsFetcher_init
            (str "A") (str "B") Scenario.one_song) = Ok PNone.
Proof.
  apply (empty_payload_gives_none Cases.empty_everywhere LyricsFetcher_init
           (str "A") (str "B") Scenario.one_song (PList [])).
  - reflexivity.
  - intros r. exists Cases.empty_reply. repeat split; reflexivity.
Defined.

(** X5 on ChartLyrics' document. *)
Lemma chartlyrics_reads_lyric_element_witness :
  str "La la la" <> []
  /\ exists e,
       e ∈ descendants Cases.lyric_document
       /\ tag_of e = str "{http://api.chartlyrics.com/}Lyric"
       /\ text_of e = Some (str "La la la").
Proof.
  apply (proj1 (chartlyrics_reads_lyric_element Cases.chartlyrics_hit
                  LyricsFetcher_init (str "A") (str "B") Scenario.one_song
                  Cases.chartlyrics_reply Cases.lyric_document
                  eq_refl eq_refl eq_refl) (str "La la la")).
  vm_compute. reflexivity.
Defined.

(** X6 on lyrics.ovh's padded text. *)
Lemma ovh_reads_lyrics_entry_witness :
  fst (fetch_lyrics_ovh Scenario.ovh_padded LyricsFetcher_init
         (str "A") (str "B") Scenario.one_song)
  = Ok (PStr (str " La la la ")).
Proof.
  rewrite (ovh_reads_lyrics_entry Scenario.ovh_padded LyricsFetcher_init
             (str "A") (str "B") Scenario.one_song
             {| status_code := 200;
                json := Some (PDict {[ str "lyrics" :=
                                         PStr (str " La la la ") ]});
                xml := None |}
             (PDict {[ str "lyrics" := PStr (str " La la la ") ]})
             eq_refl eq_refl eq_refl).
  vm_compute. reflexivity.
Defined.

(** X8 on the padded text. *)
Lemma fetch_lyrics_result_is_trimmed_witness :
  (forall c, head (str "La la la") = Some c -> isspace c = false)
  /\ (forall c, last (str "La la la") = Some c -> isspace c = false).
Proof.
  apply (fetch_lyrics_result_is_trimmed Scenario.ovh_padded
           LyricsFetcher_init (str "A") (str "B") Scenario.one_song
           (str "La la la")).
  vm_compute. reflexivity.
Defined.

(** X12 on a sidecar that is there: [save_lyrics] replaces it. *)
Lemma save_lyrics_touches_only_the_sidecar_witness :
  exists saved w',
    save_lyrics Scenario.lrclib_la Scenario.parser Scenario.song_flac
      (str "La la la") Scenario.with_lyrics = (Ok saved, w')
    /\ log w' = log Scenario.with_lyrics
    /\ (forall q, q <> Scenario.song_txt ->
                  fs w' !! q = fs Scenario.with_lyrics !! q)
    /\ (saved = true ->
        fs Scenario.with_lyrics !! Scenario.song_txt <> Some Dir
        /\ disk Scenario.lrclib_la Scenario.song_txt (str "La la la")
           = Written
        /\ fs w' !! Scenario.song_txt = Some (File (str "La la la"))).
Proof.
  apply (save_lyrics_touches_only_the_sidecar Scenario.lrclib_la
           Scenario.parser Scenario.song_flac Scenario.song_txt
           (str "La la la") Scenario.with_lyrics).
  vm_compute. reflexivity.
Defined.

(** X13 on a tagged file no service knows. *)
Lemma no_lyrics_is_one_error_witness :
  exists self' w3,
    process_audio_file Scenario.silent Scenario.parser Scenario.song_flac
      Scenario.one_song = (Ok self', w3)
    /\ errors self' = errors Scenario.parser + 1
    /\ processed self' = processed Scenario.parser + 1
    /\ found self' = found Scenario.parser
    /\ fs w3 = fs Scenario.one_song
    /\ log w3
       = log (snd (fetch_lyrics Scenario.silent LyricsFetcher_init
                     (str "Test Artist") (str "Test Song")
                     (log_event (EvTags Scenario.song_flac)
                        Scenario.one_song)))
         ++ [EvSleep (delay Scenario.parser)].
Proof.
  apply (no_lyrics_is_one_error Scenario.silent Scenario.parser
           Scenario.song_flac Scenario.song_txt Scenario.one_song
           (snd (fetch_lyrics Scenario.silent LyricsFetcher_init
                   (str "Test Artist") (str "Test Song")
                   (log_event (EvTags Scenario.song_flac)
                      Scenario.one_song))));
    first [vm_compute; reflexivity | vm_compute; discriminate].
Defined.

(** X14 on a text of two blanks and a line break. *)
Lemma blank_lyrics_are_an_error_witness :
  process_audio_file Cases.blank_lrclib Scenario.parser Scenario.song_flac
    Scenario.one_song
  = (Ok (add_processed (add_errors Scenario.parser)),
     log_event (EvSleep (delay Scenario.parser))
       (log_event
          (EvGet (lrclib_request (str "Test Artist") (str "Test Song")))
          (log_event (EvTags Scenario.song_flac) Scenario.one_song))).
Proof.
  apply (blank_lyrics_are_an_error Cases.blank_lrclib Scenario.parser
           Scenario.song_flac Scenario.song_txt Scenario.one_song
           [32%N; 32%N; 10%N]);
    first [vm_compute; reflexivity | vm_compute; discriminate].
Defined.

(** X15 on the end-to-end scenario. *)
Lemma found_means_sidecar_written_witness :
  exists txt_path lyrics,
    with_suffix Scenario.song_flac (str ".txt") = Ok txt_path
    /\ fs Scenario.one_song !! txt_path = None
    /\ fs (snd (process_audio_file Scenario.lrclib_la Scenario.parser
                  Scenario.song_flac Scenario.one_song)) !! txt_path
       = Some (File lyrics)
    /\ lyrics <> []
    /\ found (add_processed (add_found Scenario.parser))
       = found Scenario.parser + 1.
Proof.
  apply (found_means_sidecar_written Scenario.lrclib_la Scenario.parser
           Scenario.song_flac (add_processed (add_found Scenario.parser))
           Scenario.one_song
           (snd (process_audio_file Scenario.lrclib_la Scenario.parser
                   Scenario.song_flac Scenario.one_song))).
  - vm_compute. reflexivity.
  - vm_compute. discriminate.
Defined.

(** X16 on [song.flac] and [song.mp3]. *)
Lemma same_stem_second_file_is_skipped_witness :
  process_audio_file Scenario.lrclib_la
    (add_processed (add_found Scenario.parser)) Cases.song_mp3
    (snd (process_audio_file Scenario.lrclib_la Scenario.parser
            Scenario.song_flac Cases.twins))
  = (Ok (add_processed (add_found Scenario.parser)),
     snd (process_audio_file Scenario.lrclib_la Scenario.parser
            Scenario.song_flac Cases.twins)).
Proof.
  apply (same_stem_second_file_is_skipped Scenario.lrclib_la Scenario.parser
           Scenario.song_flac Cases.song_mp3
           (add_processed (add_found Scenario.parser)) Cases.twins).
  - vm_compute. reflexivity.
  - vm_compute. discriminate.
  - vm_compute. reflexivity.
Defined.

(** X17 on an older sidecar. *)
Lemma run_keeps_existing_entries_witness :
  fs (snd (process_directory Scenario.lrclib_la Scenario.parser
             Scenario.with_lyrics)) !! Scenario.song_txt
  = Some (File (str "old words")).
Proof.
  apply (run_keeps_existing_entries Scenario.lrclib_la Scenario.parser
           Scenario.with_lyrics Scenario.song_txt (File (str "old words"))).
  vm_compute. reflexivity.
Defined.

(** X18 on a directory whose only file the patterns miss. *)
Lemma run_without_files_does_nothing_witness :
  process_directory Scenario.lrclib_la Scenario.parser Scenario.mixed_case
  = (Ok Scenario.parser, Scenario.mixed_case).
Proof.
  apply (run_without_files_does_nothing Scenario.lrclib_la Scenario.parser
           Scenario.mixed_case).
  right. vm_compute. reflexivity.
Defined.

(** X19 on the end-to-end scenario. *)
Lemma run_counters_are_bounded_witness :
  0 <= found (add_processed (add_found Scenario.parser))
    <= processed (add_processed (add_found Scenario.parser))
  /\ 0 <= errors (add_processed (add_found Scenario.parser))
  /\ processed (add_processed (add_found Scenario.parser))
     <= Z.of_nat (length (discovered (fs Scenario.one_song) Scenario.music))
  /\ found (add_processed (add_found Scenario.parser))
     + errors (add_processed (add_found Scenario.parser))
     <= Z.of_nat (length (discovered (fs Scenario.one_song) Scenario.music)).
Proof.
  apply (run_counters_are_bounded Scenario.lrclib_la Scenario.music (2 # 1)
           (add_processed (add_found Scenario.parser)) Scenario.one_song
           (snd (process_directory Scenario.lrclib_la Scenario.parser
                   Scenario.one_song))).
  vm_compute. reflexivity.
Defined.

(** X20 on the end-to-end scenario. *)
Lemma run_sleeps_once_per_processed_file_witness :
  count is_sleep
    (log (snd (process_directory Scenario.lrclib_la Scenario.parser
                 Scenario.one_song)))
  - count is_sleep (log Scenario.one_song)
  = processed (add_processed (add_found Scenario.parser))
    - processed Scenario.parser
  /\ processed (add_processed (add_found Scenario.parser))
     - processed Scenario.parser
     <= count is_request
          (log (snd (process_directory Scenario.lrclib_la Scenario.parser
                       Scenario.one_song)))
        - count is_request (log Scenario.one_song)
     <= 3 * (processed (add_processed (add_found Scenario.parser))
             - processed Scenario.parser).
Proof.
  apply (run_sleeps_once_per_processed_file Scenario.lrclib_la
           Scenario.parser (add_processed (add_found Scenario.parser))
           Scenario.one_song
           (snd (process_directory Scenario.lrclib_la Scenario.parser
                   Scenario.one_song))).
  vm_compute. reflexivity.
Defined.

(** X22 on two files and LRCLIB's malformed reply: the scan finds both,
    the exception raised at the first ends the run, and the second is not
    visited. *)
Lemma visited_files_by_extension_witness :
  discovered (fs Cases.twins) (directory Scenario.parser)
  = [Scenario.song_flac; Cases.song_mp3]
  /\ process_directory Scenario.lrclib_number Scenario.parser Cases.twins
     = (Raise AttributeError,
        snd (process_audio_file Scenario.lrclib_number Scenario.parser
               Scenario.song_flac Cases.twins)).
Proof.
  split; [vm_compute; reflexivity|].
  assert (is_Some (fs Cases.twins !! directory Scenario.parser)) as Hd
    by (vm_compute; eexists; reflexivity).
  apply (proj2 (proj2 (visited_files_by_extension Scenario.lrclib_number
                         Scenario.parser Cases.twins Hd))
           [] Scenario.song_flac [Cases.song_mp3] Scenario.parser
           Cases.twins AttributeError);
    vm_compute; reflexivity.
Defined.

(** X24 on a library that reads no file. *)
Lemma unreadable_or_foreign_file_has_no_tags_witness :
  Tags.extract_metadata Cases.deaf Scenario.song_flac = (None, None).
Proof.
  apply (unreadable_or_foreign_file_has_no_tags Cases.deaf
           Scenario.song_flac).
  left. repeat split; exists OSError; reflexivity.
Defined.

(** X25 on [Song.Flac] with both spellings of the artist key. *)
Lemma flac_lower_case_keys_come_first_witness :
  Tags.extract_metadata (Cases.finding Cases.both_cases)
    (Scenario.music ++ [str "Song" ++ str "." ++ str "Flac"])
  = (Some (str "Test Artist"), Some (str "Test Song")).
Proof.
  apply (flac_lower_case_keys_come_first (Cases.finding Cases.both_cases)
           Scenario.music (str "Song") (str "Flac") Cases.both_cases
           (str "Test Artist") [] (str "Test Song") []);
    try (vm_compute; reflexivity); try discriminate.
  vm_compute. intros H.
  repeat (apply elem_of_cons in H as [H|H]; [discriminate H|]).
  by apply elem_of_nil in H.
Defined.

(** X26 on a file with [ARTIST] only. *)
Lemma flac_upper_case_key_is_the_fallback_witness :
  Tags.extract_metadata (Cases.finding Cases.upper_case_artist)
    Scenario.song_flac
  = (Some (str "Test Artist"), Some (str "Test Song")).
Proof.
  apply (flac_upper_case_key_is_the_fallback
           (Cases.finding Cases.upper_case_artist) Scenario.song_flac
           Cases.upper_case_artist (str "Test Artist") []
           (str "Test Song") []);
    try (vm_compute; reflexivity); try discriminate.
  left. vm_compute. reflexivity.
Defined.

(** X28 on an MP3 file with both frames. *)
Lemma mp3_reads_tpe1_and_tit2_witness :
  Tags.extract_metadata (Cases.finding Cases.id3_frames) Cases.song_mp3
  = (Some (str "Test Artist"), Some (str "Test Song")).
Proof.
  apply (proj1 (proj2 (mp3_reads_tpe1_and_tit2
                         (Cases.finding Cases.id3_frames) Cases.song_mp3
                         (Some Cases.id3_frames) eq_refl eq_refl)
                  Cases.id3_frames eq_refl
                  ltac:(intros H; apply (f_equal (fun m => m !! str "TPE1"))
                          in H; vm_compute in H; discriminate H))
           (str "Test Artist") [] (str "Test Song") []);
    vm_compute; reflexivity.
Defined.

(** X29 on a library that reads no file. *)
Lemma unreadable_file_is_one_error_witness :
  process_audio_file (Tags.reading Cases.deaf Scenario.lrclib_la)
    Scenario.parser Scenario.song_flac Scenario.one_song
  = (Ok (add_errors Scenario.parser),
     log_event (EvTags Scenario.song_flac) Scenario.one_song).
Proof.
  apply (unreadable_file_is_one_error Scenario.lrclib_la Cases.deaf
           Scenario.parser Scenario.song_flac Scenario.song_txt
           Scenario.one_song);
    try (vm_compute; reflexivity); exists OSError; reflexivity.
Defined.

(** X30 on a directory that is not there, with a further argument, and on
    the home of a user nobody knows. *)
Lemma main_runs_on_its_first_argument_witness :
  main Scenario.lrclib_la Cases.resolve
    [str "audio_lyrics_fetcher.py"; str "nowhere"; str "more"]
    Scenario.one_song
  = (Returned (AudioParser_init [str "/"; str "nowhere"] (2 # 1)),
     Scenario.one_song)
  /\ main Scenario.lrclib_la Cases.resolve
       [str "audio_lyrics_fetcher.py"; str "~nobody"] Scenario.one_song
     = (Uncaught RuntimeError, Scenario.one_song).
Proof.
  split.
  - apply (proj2 (main_runs_on_its_first_argument Scenario.lrclib_la
                    Cases.resolve
                    [str "audio_lyrics_fetcher.py"; str "nowhere";
                     str "more"]
                    Scenario.one_song)
             (str "audio_lyrics_fetcher.py") (str "nowhere") [str "more"]
             eq_refl);
      vm_compute; reflexivity.
  - apply (proj2 (main_runs_on_its_first_argument Scenario.lrclib_la
                    Cases.resolve
                    [str "audio_lyrics_fetcher.py"; str "~nobody"]
                    Scenario.one_song)
             (str "audio_lyrics_fetcher.py") (str "~nobody") []
             eq_refl);
      vm_compute; reflexivity.
Defined.
